(** * Outlier filters and the leakage-safe model comparison

    A shallow embedding of [data_cleaning_module.py]: the two estimators
    [OutlierStdRemove] and [OutlierIQRRemove] and the harness
    [ModelComparer].

    The module is written against pandas and scikit-learn.  The embedding
    keeps the operations the module calls, with the behaviour pandas
    documents for them:

    - cells are IEEE binary64 numbers, the kernel's primitive [float], so
      NaN and the comparisons that are false on NaN are the real ones;
    - a table is a list of labelled rows; a row maps column names to cells
      (column labels of a table are distinct); a cell absent from a row
      reads as NaN, as pandas fills it when a frame is built from records;
    - a Series is an association list from labels to values, in order;
    - Python exceptions are the [Raise] results of [result];
    - reductions skip NaN cells, pandas' default [skipna=True]; sums are
      taken from left to right. *)

From Stdlib Require Import ZArith List Floats Lia.
From Stdlib Require Uint63.
From stdpp Require Import base tactics option list gmap strings sorting.

Local Open Scope float_scope.

(** ** Binary64 helpers *)

Module Float64.

Definition of_nat (n : nat) : float :=
  PrimFloat.of_uint63 (Uint63.of_Z (Z.of_nat n)).

(** Integer part of a non-negative finite number (0 otherwise). *)
Definition floor_nat (f : float) : nat :=
  match Prim2SF f with
  | S754_finite false m e => Z.to_nat (Z.shiftl (Zpos m) e)
  | _ => O
  end.

(** Python's [x >= y] and [x <= y] on floats. *)
Definition geb (x y : float) : bool := (y <=? x).
Definition leb (x y : float) : bool := (x <=? y).

End Float64.

(** ** Exceptions *)

Inductive exn : Type :=
| KeyError (key : string)     (* a column or dict key that is absent *)
| LabelKeyError (label : Z)   (* a row label that [.loc] does not find *)
| ValueError                  (* comparison of differently labelled Series *)
| External (msg : string).    (* raised by the model or the splitter *)

Inductive result (A : Type) : Type :=
| Ok (a : A)
| Raise (e : exn).
Arguments Ok {A} a.
Arguments Raise {A} e.

Definition rbind {A B} (m : result A) (k : A -> result B) : result B :=
  match m with
  | Ok a => k a
  | Raise e => Raise e
  end.

#[export] Instance result_ret : MRet result := fun A a => Ok a.
#[export] Instance result_bind : MBind result := fun A B k m => rbind m k.

(** A [for] loop that threads one variable and stops at the first raise. *)
Fixpoint for_each {A S} (xs : list A) (body : S -> A -> result S) (s : S)
  : result S :=
  match xs with
  | [] => Ok s
  | x :: xs' => s' ← body s x; for_each xs' body s'
  end.

(** A list comprehension whose element expression may raise. *)
Fixpoint comprehension {A B} (f : A -> result B) (xs : list A)
  : result (list B) :=
  match xs with
  | [] => Ok []
  | x :: xs' => y ← f x; ys ← comprehension f xs'; Ok (y :: ys)
  end.

(** ** Tables and Series *)

Record Row : Type := mkRow {
  row_label : Z;
  row_cells : gmap string float
}.

Record DataFrame : Type := mkDF {
  df_columns : list string;
  df_rows : list Row
}.

Abbreviation Series K V := (list (K * V)) (only parsing).

Definition cell (r : Row) (c : string) : float :=
  default nan (row_cells r !! c).

(** [X.index] and [len(X)]. *)
Definition df_index (X : DataFrame) : list Z := map row_label (df_rows X).
Definition df_len (X : DataFrame) : nat := length (df_rows X).

(** [X[col]]: the column as a Series over the row labels. *)
Definition df_getitem (X : DataFrame) (col : string)
  : result (Series Z float) :=
  if bool_decide (col ∈ df_columns X)
  then Ok (map (fun r => (row_label r, cell r col)) (df_rows X))
  else Raise (KeyError col).

Definition restrict_row (cols : list string) (r : Row) : Row :=
  mkRow (row_label r) (filter (fun kv => kv.1 ∈ cols) (row_cells r)).

(** [X[cols]] with a list of names: a new frame of those columns, or the
    [KeyError] of a name the frame lacks (the first one stands for the
    names pandas lists in its message). *)
Definition df_getitem_list (X : DataFrame) (cols : list string)
  : result DataFrame :=
  match filter (fun c => c ∉ df_columns X) cols with
  | [] => Ok (mkDF cols (map (restrict_row cols) (df_rows X)))
  | c :: _ => Raise (KeyError c)
  end.

(** [X[mask]] with a boolean Series over the same index: the rows whose
    mask entry is [True], by position. *)
Fixpoint select_rows (rs : list Row) (mask : list bool) : list Row :=
  match rs, mask with
  | r :: rs', b :: mask' =>
      if b then r :: select_rows rs' mask' else select_rows rs' mask'
  | _, _ => []
  end.

Definition df_mask (X : DataFrame) (mask : Series Z bool) : DataFrame :=
  mkDF (df_columns X) (select_rows (df_rows X) (map snd mask)).

(** [X.copy()], as a value. *)
Definition df_copy (X : DataFrame) : DataFrame :=
  mkDF (df_columns X) (df_rows X).

(** A value a Series lookup may give: a scalar when the label occurs
    once, the sub-Series of its occurrences when it is repeated. *)
Inductive pyval : Type :=
| PFloat (f : float)
| PSeries (s : Series string float).

Definition series_getitem (s : Series string float) (k : string)
  : result pyval :=
  match filter (fun kv => kv.1 = k) s with
  | [] => Raise (KeyError k)
  | [(_, v)] => Ok (PFloat v)
  | l => Ok (PSeries l)
  end.

(** Arithmetic of a Series with a scalar, and of two Series over the same
    index (element by element). *)
Definition series_scale {K} (s : Series K float) (a : float)
  : Series K float :=
  map (fun kv => (kv.1, kv.2 * a)) s.

Definition series_zip {K} (f : float -> float -> float)
    (s t : Series K float) : Series K float :=
  zip_with (fun kv kw => (kv.1, f kv.2 kw.2)) s t.

Definition series_sub {K} := @series_zip K PrimFloat.sub.
Definition series_add {K} := @series_zip K PrimFloat.add.

(** [s >= v] and [s <= v] for a row-labelled [s]: element by element
    against a scalar; a column-labelled Series on the right is not
    identically labelled, which pandas refuses. *)
Definition series_ge (s : Series Z float) (v : pyval)
  : result (Series Z bool) :=
  match v with
  | PFloat f => Ok (map (fun kv => (kv.1, Float64.geb kv.2 f)) s)
  | PSeries _ => Raise ValueError
  end.

Definition series_le (s : Series Z float) (v : pyval)
  : result (Series Z bool) :=
  match v with
  | PFloat f => Ok (map (fun kv => (kv.1, Float64.leb kv.2 f)) s)
  | PSeries _ => Raise ValueError
  end.

Definition series_and {K} (s t : Series K bool) : Series K bool :=
  zip_with (fun kv kw => (kv.1, kv.2 && kw.2)) s t.

(** ** Reductions *)

Definition fsum (xs : list float) : float := fold_left PrimFloat.add xs 0.

Definition fillna0 (xs : list float) : list float :=
  map (fun x => if is_nan x then 0 else x) xs.

Definition count_valid (xs : list float) : nat :=
  length (filter (fun x => is_nan x = false) xs).

(** [mean()] of a column: the sum of the valid cells (a NaN cell counts
    as 0 in the sum) over their number; NaN when no cell is valid. *)
Definition nanmean (xs : list float) : float :=
  let count := count_valid xs in
  let the_sum := fsum (fillna0 xs) in
  if (0 <? count)%nat then the_sum / Float64.of_nat count else nan.

(** [std()] of a column, [ddof = 1]: the squared deviations of the valid
    cells from their mean, summed and divided by their number less one;
    NaN unless more than one cell is valid. *)
Definition nanvar (xs : list float) : float :=
  let n := count_valid xs in
  let count := if (n <=? 1)%nat then nan else Float64.of_nat n in
  let d := if (n <=? 1)%nat then nan else Float64.of_nat n - 1 in
  let avg := fsum (fillna0 xs) / count in
  let sqr :=
    map (fun x => if is_nan x then 0 else (avg - x) * (avg - x)) xs in
  fsum sqr / d.

Definition nanstd (xs : list float) : float := sqrt (nanvar xs).

(** Ascending order of the valid cells. *)
Fixpoint insert_sorted (x : float) (xs : list float) : list float :=
  match xs with
  | [] => [x]
  | y :: ys => if (x <=? y) then x :: y :: ys else y :: insert_sorted x ys
  end.

Definition sort_floats (xs : list float) : list float :=
  foldr insert_sorted [] xs.

(** Linear interpolation between [a] and [b] at [t]. *)
Definition lerp (a b t : float) : float :=
  let diff_b_a := b - a in
  if (0.5 <=? t) then b - diff_b_a * (1 - t) else a + diff_b_a * t.

(** [quantile(q)] of a column, [interpolation = 'linear'] (the default),
    as numpy's [percentile] computes it on the valid cells: the cells in
    ascending order, the virtual index [(n - 1) * q], and the
    interpolation between the two order statistics around it; NaN when no
    cell is valid. *)
Definition quantile (q : float) (xs : list float) : float :=
  let arr := sort_floats (filter (fun x => is_nan x = false) xs) in
  let n := length arr in
  if (n =? 0)%nat then nan
  else
    let virtual_index := Float64.of_nat (n - 1) * q in
    let previous_index := Float64.floor_nat virtual_index in
    let next_index := Nat.min (previous_index + 1) (n - 1) in
    let gamma := virtual_index - Float64.of_nat previous_index in
    lerp (nth previous_index arr nan) (nth next_index arr nan) gamma.

(** A reduction of every column of a frame: a Series over the columns. *)
Definition column_values (X : DataFrame) (c : string) : list float :=
  map (fun r => cell r c) (df_rows X).

Definition df_reduce (f : list float -> float) (X : DataFrame)
  : Series string float :=
  map (fun c => (c, f (column_values X c))) (df_columns X).

Definition df_mean : DataFrame -> Series string float := df_reduce nanmean.
Definition df_std : DataFrame -> Series string float := df_reduce nanstd.
Definition df_quantile (q : float) : DataFrame -> Series string float :=
  df_reduce (quantile q).

(** ** The estimators

    Both classes keep [columns], [factor] and the dict [bounds_], which
    [__init__] sets to the empty dict (lines 17-20 and 57-60).  [fit]
    returns the estimator with its new [bounds_]. *)

Definition dict_getitem {V} (d : gmap string V) (k : string) : result V :=
  match d !! k with
  | Some v => Ok v
  | None => Raise (KeyError k)
  end.

(** A dict built from pairs in order: a later pair replaces an earlier
    one with the same key. *)
Definition dict_of_pairs {V} (kvs : list (string * V)) : gmap string V :=
  fold_left (fun d kv => <[kv.1 := kv.2]> d) kvs ∅.

Record Estimator : Type := mkEstimator {
  columns : list string;
  factor : float;
  bounds_ : gmap string (pyval * pyval)
}.

Definition set_bounds (self : Estimator)
    (b : gmap string (pyval * pyval)) : Estimator :=
  mkEstimator (columns self) (factor self) b.

(** The dict comprehension that ends both [fit] methods (lines 31-33 and
    72-74). *)
Definition bounds_of (lower_bounds upper_bounds : Series string float)
    (cols : list string) : result (gmap string (pyval * pyval)) :=
  kvs ← comprehension
           (fun col =>
              lo ← series_getitem lower_bounds col;
              hi ← series_getitem upper_bounds col;
              Ok (col, (lo, hi)))
           cols;
  Ok (dict_of_pairs kvs).

Module OutlierStdRemove.

(** [factor=3.0] in the signature of [__init__]. *)
Definition default_factor : float := 3.0.

(** [__init__], lines 17-20. *)
Definition init (columns : list string) (factor : float) : Estimator :=
  mkEstimator columns factor ∅.

(** [fit], lines 22-34. *)
Definition fit (self : Estimator) (X : DataFrame) : result Estimator :=
  X_subset ← df_getitem_list X (columns self);
  let means := df_mean X_subset in
  let stds := df_std X_subset in
  let lower_bounds := series_sub means (series_scale stds (factor self)) in
  let upper_bounds := series_add means (series_scale stds (factor self)) in
  b ← bounds_of lower_bounds upper_bounds (columns self);
  Ok (set_bounds self b).

(** [transform], lines 36-43. *)
Definition transform (self : Estimator) (X : DataFrame)
  : result DataFrame :=
  let X_transformed := df_copy X in
  for_each (columns self)
    (fun X_transformed col =>
       '(lower, upper) ← dict_getitem (bounds_ self) col;
       s1 ← df_getitem X_transformed col;
       m1 ← series_ge s1 lower;
       s2 ← df_getitem X_transformed col;
       m2 ← series_le s2 upper;
       Ok (df_mask X_transformed (series_and m1 m2)))
    X_transformed.

End OutlierStdRemove.

Module OutlierIQRRemove.

(** [factor=1.5] in the signature of [__init__]. *)
Definition default_factor : float := 1.5.

(** [__init__], lines 57-60. *)
Definition init (columns : list string) (factor : float) : Estimator :=
  mkEstimator columns factor ∅.

(** [fit], lines 62-75. *)
Definition fit (self : Estimator) (X : DataFrame) : result Estimator :=
  X_subset ← df_getitem_list X (columns self);
  let Q1 := df_quantile 0.25 X_subset in
  let Q3 := df_quantile 0.75 X_subset in
  let IQR := series_sub Q3 Q1 in
  let lower_bounds := series_sub Q1 (series_scale IQR (factor self)) in
  let upper_bounds := series_add Q3 (series_scale IQR (factor self)) in
  b ← bounds_of lower_bounds upper_bounds (columns self);
  Ok (set_bounds self b).

(** [transform], lines 77-84. *)
Definition transform (self : Estimator) (X : DataFrame)
  : result DataFrame :=
  let X_transformed := df_copy X in
  for_each (columns self)
    (fun X_transformed col =>
       '(lower, upper) ← dict_getitem (bounds_ self) col;
       s1 ← df_getitem X_transformed col;
       m1 ← series_ge s1 lower;
       s2 ← df_getitem X_transformed col;
       m2 ← series_le s2 upper;
       Ok (df_mask X_transformed (series_and m1 m2)))
    X_transformed.

End OutlierIQRRemove.

(** ** A worked table: one numeric column, rows labelled 0, 1, 2, ... *)

Definition row1 (i : Z) (c : string) (v : float) : Row :=
  mkRow i (<[c := v]> ∅).

Definition single_column (c : string) (vs : list float) : DataFrame :=
  mkDF [c] (imap (fun i v => row1 (Z.of_nat i) c v) vs).

Definition iqr_example : DataFrame :=
  single_column "v" [1; 2; 3; 4; 5; 6; 7; 8; 9; 100].

(** ** The estimators over a store of table objects

    The same methods with tables as references into a store, one object
    per [DataFrame] the program creates: [X.copy()], [X[cols]] and
    [X[mask]] each build a new object, reading [X[col]] builds none. *)

Definition loc : Type := positive.
Definition store : Type := gmap positive DataFrame.
Definition M (A : Type) : Type := store -> store * result A.

#[export] Instance M_ret : MRet M := fun A a σ => (σ, Ok a).
#[export] Instance M_bind : MBind M := fun A B k m σ =>
  match m σ with
  | (σ', Ok a) => k a σ'
  | (σ', Raise e) => (σ', Raise e)
  end.

Definition lift {A} (r : result A) : M A := fun σ => (σ, r).

Definition new_frame (X : DataFrame) : M loc := fun σ =>
  let l := fresh (dom σ) in (<[l := X]> σ, Ok l).

Definition read (l : loc) : M DataFrame := fun σ =>
  (σ, match σ !! l with
      | Some X => Ok X
      | None => Raise (External "dangling reference")
      end).

Fixpoint for_each_st {A S} (xs : list A) (body : S -> A -> M S) (s : S)
  : M S :=
  match xs with
  | [] => mret s
  | x :: xs' => s' ← body s x; for_each_st xs' body s'
  end.

Module Stateful.

Definition copy (X : loc) : M loc :=
  v ← read X; new_frame (df_copy v).

Definition getitem (X : loc) (col : string) : M (Series Z float) :=
  v ← read X; lift (df_getitem v col).

Definition getitem_list (X : loc) (cols : list string) : M loc :=
  v ← read X; F ← lift (df_getitem_list v cols); new_frame F.

Definition mask (X : loc) (m : Series Z bool) : M loc :=
  v ← read X; new_frame (df_mask v m).

(** [OutlierStdRemove.fit], lines 22-34. *)
Definition std_fit (self : Estimator) (X : loc) : M Estimator :=
  X_subset ← getitem_list X (columns self);
  F ← read X_subset;
  let means := df_mean F in
  let stds := df_std F in
  let lower_bounds := series_sub means (series_scale stds (factor self)) in
  let upper_bounds := series_add means (series_scale stds (factor self)) in
  b ← lift (bounds_of lower_bounds upper_bounds (columns self));
  mret (set_bounds self b).

(** [OutlierIQRRemove.fit], lines 62-75. *)
Definition iqr_fit (self : Estimator) (X : loc) : M Estimator :=
  X_subset ← getitem_list X (columns self);
  F ← read X_subset;
  let Q1 := df_quantile 0.25 F in
  let Q3 := df_quantile 0.75 F in
  let IQR := series_sub Q3 Q1 in
  let lower_bounds := series_sub Q1 (series_scale IQR (factor self)) in
  let upper_bounds := series_add Q3 (series_scale IQR (factor self)) in
  b ← lift (bounds_of lower_bounds upper_bounds (columns self));
  mret (set_bounds self b).

(** [transform], the body both classes give it (lines 36-43, 77-84). *)
Definition transform (self : Estimator) (X : loc) : M loc :=
  X_transformed ← copy X;
  for_each_st (columns self)
    (fun X_transformed col =>
       '(lower, upper) ← lift (dict_getitem (bounds_ self) col);
       s1 ← getitem X_transformed col;
       m1 ← lift (series_ge s1 lower);
       s2 ← getitem X_transformed col;
       m2 ← lift (series_le s2 upper);
       mask X_transformed (series_and m1 m2))
    X_transformed.

End Stateful.

(** ** The comparison harness *)

(** [y.loc[labels]] with a list of labels: for each requested label, in
    order, the entries of [y] that carry it (all of them when [y] repeats
    the label); a label [y] does not carry is a [KeyError]. *)
Fixpoint series_loc {V} (y : Series Z V) (labels : list Z)
  : result (Series Z V) :=
  match labels with
  | [] => Ok []
  | i :: rest =>
      match filter (fun kv => kv.1 = i) y with
      | [] => Raise (LabelKeyError i)
      | hits => tl ← series_loc y rest; Ok (hits ++ tl)
      end
  end.

(** What the harness asks of a preprocessor, a single estimator or a
    pipeline: [clone], [fit], [transform]. *)
Class Transformer (P : Type) : Type := {
  t_clone : P -> P;
  t_fit : P -> DataFrame -> result P;
  t_transform : P -> DataFrame -> result DataFrame
}.

(** The two estimators of this module as preprocessors.  [clone] builds
    the estimator again from its constructor parameters. *)
Inductive Preprocessor : Type :=
| StdRemove (e : Estimator)
| IQRRemove (e : Estimator).

Definition estimator_of (p : Preprocessor) : Estimator :=
  match p with StdRemove e | IQRRemove e => e end.

#[export] Instance Preprocessor_transformer : Transformer Preprocessor := {
  t_clone p :=
    match p with
    | StdRemove e => StdRemove (OutlierStdRemove.init (columns e) (factor e))
    | IQRRemove e => IQRRemove (OutlierIQRRemove.init (columns e) (factor e))
    end;
  t_fit p X :=
    match p with
    | StdRemove e => e' ← OutlierStdRemove.fit e X; Ok (StdRemove e')
    | IQRRemove e => e' ← OutlierIQRRemove.fit e X; Ok (IQRRemove e')
    end;
  t_transform p X :=
    match p with
    | StdRemove e => OutlierStdRemove.transform e X
    | IQRRemove e => OutlierIQRRemove.transform e X
    end
}.

(** The table [pd.DataFrame(results).set_index('Dataset')]. *)
Record ResultRow : Type := mkResultRow {
  Model_Score : float;
  Train_Samples : nat;
  Test_Samples : nat
}.

Definition ResultTable : Type := list (string * ResultRow).

(** The dict of lists [results]. *)
Record ResultsDict : Type := mkResults {
  rd_Dataset : list string;
  rd_Model_Score : list float;
  rd_Train_Samples : list nat;
  rd_Test_Samples : list nat
}.

Definition results_append (d : ResultsDict) (label : string) (score : float)
    (n_train n_test : nat) : ResultsDict :=
  mkResults (rd_Dataset d ++ [label]) (rd_Model_Score d ++ [score])
            (rd_Train_Samples d ++ [n_train]) (rd_Test_Samples d ++ [n_test]).

Definition frame_of_results (d : ResultsDict) : ResultTable :=
  zip (rd_Dataset d)
      (zip_with (fun s tt => mkResultRow s tt.1 tt.2) (rd_Model_Score d)
         (zip (rd_Train_Samples d) (rd_Test_Samples d))).

Section ModelComparer.

(** The collaborators: the label type, the model with [clone], [fit] and
    [score], and [train_test_split]. *)
Context {Label Model P : Type} `{Transformer P}.
Variable clone_model : Model -> Model.
Variable model_fit : Model -> DataFrame -> Series Z Label -> result Model.
Variable model_score : Model -> DataFrame -> Series Z Label -> result float.
Variable train_test_split :
  DataFrame -> Series Z Label -> float -> Z ->
  result (DataFrame * DataFrame * Series Z Label * Series Z Label).

(** [__init__], lines 92-95. *)
Record ModelComparer : Type := mkComparer {
  model : Model;
  preprocessor : option P;
  results_ : option ResultTable
}.

Definition comparer_init (m : Model) (pre : option P) : ModelComparer :=
  mkComparer m pre None.

(** The local variables of the processed branch of [compare]. *)
Record Branch : Type := mkBranch {
  processor : P;
  X_train_processed : DataFrame;
  X_test_processed : DataFrame;
  y_train_processed : Series Z Label;
  y_test_processed : Series Z Label;
  processed_score : float
}.

(** The local variables of one call of [compare]. *)
Record Run : Type := mkRun {
  X_train : DataFrame;
  X_test : DataFrame;
  y_train : Series Z Label;
  y_test : Series Z Label;
  raw_score : float;
  branch : option Branch;
  results : ResultTable
}.

(** The body of [compare], lines 97-137, with its local variables as the
    result.  [if self.preprocessor:] is the test for [None]: an estimator
    object is true. *)
Definition compare_run (self : ModelComparer) (X : DataFrame)
    (y : Series Z Label) (test_size : float) (random_state : Z)
  : result Run :=
  '(X_train, X_test, y_train, y_test) ←
     train_test_split X y test_size random_state;
  let raw_model := clone_model (model self) in
  raw_model ← model_fit raw_model X_train y_train;
  raw_score ← model_score raw_model X_test y_test;
  let results :=
    mkResults ["Raw"] [raw_score] [df_len X_train] [df_len X_test] in
  match preprocessor self with
  | Some pre =>
      let processor := t_clone pre in
      processor ← t_fit processor X_train;
      X_train_processed ← t_transform processor X_train;
      X_test_processed ← t_transform processor X_test;
      y_train_processed ← series_loc y_train (df_index X_train_processed);
      y_test_processed ← series_loc y_test (df_index X_test_processed);
      let processed_model := clone_model (model self) in
      processed_model ←
        model_fit processed_model X_train_processed y_train_processed;
      processed_score ←
        model_score processed_model X_test_processed y_test_processed;
      let results :=
        results_append results "Processed" processed_score
          (df_len X_train_processed) (df_len X_test_processed) in
      Ok (mkRun X_train X_test y_train y_test raw_score
            (Some (mkBranch processor X_train_processed X_test_processed
                     y_train_processed y_test_processed processed_score))
            (frame_of_results results))
  | None =>
      Ok (mkRun X_train X_test y_train y_test raw_score None
            (frame_of_results results))
  end.

(** [compare], lines 97-138: the call stores the table in [results_]
    and returns it. *)
Definition compare (self : ModelComparer) (X : DataFrame)
    (y : Series Z Label) (test_size : float) (random_state : Z)
  : result (ModelComparer * ResultTable) :=
  r ← compare_run self X y test_size random_state;
  Ok (mkComparer (model self) (preprocessor self) (Some (results r)),
      results r).

End ModelComparer.

(** [test_size=0.2, random_state=42] in the signature of [compare];
    Python's [0.2] is the binary64 number nearest to it. *)
Definition default_test_size : float := 0x1.999999999999ap-3.
Definition default_random_state : Z := 42.

(** ** The filter stated on rows

    What the specification says of [transform], written on one row: the
    value of the row lies in the stored closed interval of a column, and
    does so for every monitored column. *)

Definition within (lo hi v : float) : bool :=
  Float64.geb v lo && Float64.leb v hi.

Definition row_ok (b : gmap string (pyval * pyval)) (r : Row) (c : string)
  : bool :=
  match b !! c with
  | Some (PFloat lo, PFloat hi) => within lo hi (cell r c)
  | _ => false
  end.

Definition keep (self : Estimator) (r : Row) : bool :=
  forallb (row_ok (bounds_ self) r) (columns self).

(** Every monitored column has a pair of scalar bounds. *)
Definition scalar_bounds (self : Estimator) : Prop :=
  forall c, c ∈ columns self ->
    exists lo hi, bounds_ self !! c = Some (PFloat lo, PFloat hi).

Definition with_columns (self : Estimator) (cols : list string) : Estimator :=
  mkEstimator cols (factor self) (bounds_ self).

(** ** Definitions used to state the results *)

(** One turn of the loop of [transform]. *)
Definition loop_body (self : Estimator) (X_transformed : DataFrame)
    (col : string) : result DataFrame :=
  '(lower, upper) ← dict_getitem (bounds_ self) col;
  s1 ← df_getitem X_transformed col;
  m1 ← series_ge s1 lower;
  s2 ← df_getitem X_transformed col;
  m2 ← series_le s2 upper;
  Ok (df_mask X_transformed (series_and m1 m2)).

(** The loop body of [Stateful.transform]. *)
Definition loop_body_st (self : Estimator) (X_transformed : loc)
    (col : string) : M loc :=
  '(lower, upper) ← lift (dict_getitem (bounds_ self) col);
  s1 ← Stateful.getitem X_transformed col;
  m1 ← lift (series_ge s1 lower);
  s2 ← Stateful.getitem X_transformed col;
  m2 ← lift (series_le s2 upper);
  Stateful.mask X_transformed (series_and m1 m2).

(** The bounds the two [fit] methods store for a column. *)
Definition std_bounds (factor : float) (X : DataFrame) (c : string)
  : pyval * pyval :=
  let mu := nanmean (column_values X c) in
  let sigma := nanstd (column_values X c) in
  (PFloat (mu - sigma * factor), PFloat (mu + sigma * factor)).

Definition iqr_bounds (factor : float) (X : DataFrame) (c : string)
  : pyval * pyval :=
  let Q1 := quantile 0.25 (column_values X c) in
  let Q3 := quantile 0.75 (column_values X c) in
  let IQR := Q3 - Q1 in
  (PFloat (Q1 - IQR * factor), PFloat (Q3 + IQR * factor)).




(** ** Worked instances

    Fitted estimators on small tables, and stand-ins for the collaborators
    of the harness: a model that predicts the mean label and scores by the
    negated mean squared error, and a split that holds out the last rows. *)

Definition iqr_fitted : Estimator :=
  set_bounds (OutlierIQRRemove.init ["v"] OutlierIQRRemove.default_factor)
    (dict_of_pairs [("v", (PFloat (-3.5), PFloat 14.5))]).

Definition iqr_filtered : DataFrame :=
  single_column "v" [1; 2; 3; 4; 5; 6; 7; 8; 9].

Definition std_example : DataFrame :=
  single_column "v" [1; 2; 3; 4; 100].

Definition one_row : DataFrame := single_column "v" [5].

Definition nan_fitted : Estimator :=
  set_bounds (OutlierStdRemove.init ["v"] OutlierStdRemove.default_factor)
    (dict_of_pairs [("v", (PFloat nan, PFloat nan))]).

Definition labelled (vs : list float) : Series Z float :=
  imap (fun i v => (Z.of_nat i, v)) vs.

Definition mean_model : Type := option float.

Definition mean_clone (m : mean_model) : mean_model := None.

Definition mean_fit (m : mean_model) (X : DataFrame) (y : Series Z float)
  : result mean_model :=
  match df_rows X with
  | [] => Raise (External "no samples")
  | _ :: _ => Ok (Some (nanmean (map snd y)))
  end.

Definition mean_score (m : mean_model) (X : DataFrame) (y : Series Z float)
  : result float :=
  match m, df_rows X with
  | Some mu, _ :: _ =>
      Ok (- nanmean (map (fun kv => (kv.2 - mu) * (kv.2 - mu)) y))
  | _, _ => Raise (External "cannot score")
  end.

Definition holdout_split (X : DataFrame) (y : Series Z float)
    (test_size : float) (random_state : Z)
  : result (DataFrame * DataFrame * Series Z float * Series Z float) :=
  let n := df_len X in
  let n_train := Float64.floor_nat (Float64.of_nat n * (1 - test_size)) in
  if ((n_train =? 0) || (n <=? n_train))%nat
  then Raise (External "empty partition")
  else Ok (mkDF (df_columns X) (take n_train (df_rows X)),
           mkDF (df_columns X) (drop n_train (df_rows X)),
           take n_train y, drop n_train y).

Definition demo_X : DataFrame := single_column "v" [1; 2; 3; 50; 3].

Definition demo_X' : DataFrame := single_column "v" [1; 2; 3; 50; 2].

Definition demo_y : Series Z float := labelled [2; 4; 6; 100; 6].

Definition demo_comparer : ModelComparer :=
  comparer_init (None : mean_model)
    (Some (IQRRemove (OutlierIQRRemove.init ["v"]
                        OutlierIQRRemove.default_factor))).

Definition demo_run (X : DataFrame) : result Run :=
  compare_run mean_clone mean_fit mean_score holdout_split
    demo_comparer X demo_y default_test_size default_random_state.

Definition one_table : store := {[ 1%positive := iqr_example ]}.

(** ** Facts on binary64 *)

Section Float64Facts.

Lemma leb_nan_l x : (nan <=? x) = false.
Proof. rewrite FloatAxioms.leb_spec. reflexivity. Qed.

Lemma leb_nan_r x : (x <=? nan) = false.
Proof.
  rewrite FloatAxioms.leb_spec. unfold SFleb, SFcompare.
  change (Prim2SF nan) with S754_nan. destruct (Prim2SF x); reflexivity.
Qed.

Lemma sub_nan_r x : x - nan = nan.
Proof.
  apply Prim2SF_inj. rewrite sub_spec. change (Prim2SF nan) with S754_nan.
  unfold SF64sub, SFsub. destruct (Prim2SF x); reflexivity.
Qed.

Lemma add_nan_r x : x + nan = nan.
Proof.
  apply Prim2SF_inj. rewrite add_spec. change (Prim2SF nan) with S754_nan.
  unfold SF64add, SFadd. destruct (Prim2SF x); reflexivity.
Qed.

Lemma mul_nan_l x : nan * x = nan.
Proof.
  apply Prim2SF_inj. rewrite mul_spec. change (Prim2SF nan) with S754_nan.
  reflexivity.
Qed.

Lemma div_nan_r x : x / nan = nan.
Proof.
  apply Prim2SF_inj. rewrite div_spec. change (Prim2SF nan) with S754_nan.
  unfold SF64div, SFdiv. destruct (Prim2SF x); reflexivity.
Qed.

Lemma sqrt_nan : sqrt nan = nan.
Proof. reflexivity. Qed.

Lemma is_nan_eq x : is_nan x = true <-> x = nan.
Proof.
  split.
  - intros H. apply Prim2SF_inj. unfold Prim2SF at 1. rewrite H. reflexivity.
  - intros ->. reflexivity.
Qed.

Lemma geb_nan_l x : Float64.geb nan x = false.
Proof. apply leb_nan_r. Qed.

Lemma geb_nan_r x : Float64.geb x nan = false.
Proof. apply leb_nan_l. Qed.

End Float64Facts.


(** ** The loop of [transform] is a filter on rows *)

Section RowFilter.

Lemma rbind_ok {A B} (m : result A) (k : A -> result B) (b : B) :
  m ≫= k = Ok b -> exists a, m = Ok a /\ k a = Ok b.
Proof. destruct m as [a|e]; simpl; [eauto | discriminate]. Qed.

Lemma select_rows_and (f g : Row -> bool) (k1 k2 : Row -> Z) (rs : list Row) :
  select_rows rs
    (map snd (series_and (map (fun r => (k1 r, f r)) rs)
                         (map (fun r => (k2 r, g r)) rs)))
  = filter (fun r => f r && g r = true) rs.
Proof.
  induction rs as [|r rs IH]; [reflexivity|].
  rewrite filter_cons, <- IH. simpl.
  destruct (f r && g r); reflexivity.
Qed.

Lemma filter_filter_and (f g : Row -> bool) (rs : list Row) :
  filter (fun r => g r = true) (filter (fun r => f r = true) rs)
  = filter (fun r => f r && g r = true) rs.
Proof.
  induction rs as [|r rs IH]; [reflexivity|].
  rewrite !filter_cons. destruct (f r) eqn:Ef; simpl.
  - rewrite filter_cons, IH. destruct (g r); reflexivity.
  - apply IH.
Qed.

Lemma loop_body_scalar self C rs col lo hi :
  bounds_ self !! col = Some (PFloat lo, PFloat hi) ->
  col ∈ C ->
  loop_body self (mkDF C rs) col
  = Ok (mkDF C (filter (fun r => row_ok (bounds_ self) r col = true) rs)).
Proof.
  intros Hb Hc. unfold loop_body, dict_getitem. rewrite Hb. simpl.
  unfold df_getitem. simpl. rewrite bool_decide_eq_true_2 by done. simpl.
  unfold df_mask. simpl. f_equal. f_equal. rewrite !map_map.
  etransitivity;
    [apply (select_rows_and (fun r => Float64.geb (cell r col) lo)
              (fun r => Float64.leb (cell r col) hi) row_label row_label)|].
  apply list_filter_iff. intros r. unfold row_ok, within. rewrite Hb. done.
Qed.

Lemma for_each_scalar self C cols rs :
  (forall c, c ∈ cols -> c ∈ C) ->
  (forall c, c ∈ cols ->
     exists lo hi, bounds_ self !! c = Some (PFloat lo, PFloat hi)) ->
  for_each cols (loop_body self) (mkDF C rs)
  = Ok (mkDF C (filter (fun r => forallb (row_ok (bounds_ self) r) cols = true)
                  rs)).
Proof.
  revert rs. induction cols as [|c cols IH]; intros rs HC Hb.
  - simpl. f_equal. f_equal. induction rs as [|r rs IHr]; [reflexivity|].
    rewrite filter_cons. simpl. congruence.
  - destruct (Hb c) as (lo & hi & Hc); [left|].
    cbn [for_each]. rewrite (loop_body_scalar _ _ _ _ lo hi) by (auto; apply HC; left).
    simpl. rewrite IH.
    + f_equal. f_equal. rewrite filter_filter_and. reflexivity.
    + intros c' ?. apply HC. by right.
    + intros c' ?. apply Hb. by right.
Qed.

Lemma std_transform_unfold self X :
  OutlierStdRemove.transform self X
  = for_each (columns self) (loop_body self) (df_copy X).
Proof. reflexivity. Qed.

Lemma transform_same self X :
  OutlierIQRRemove.transform self X = OutlierStdRemove.transform self X.
Proof. reflexivity. Qed.

Lemma transform_scalar self X :
  scalar_bounds self ->
  (forall c, c ∈ columns self -> c ∈ df_columns X) ->
  OutlierStdRemove.transform self X
  = Ok (mkDF (df_columns X) (filter (fun r => keep self r = true) (df_rows X))).
Proof.
  intros Hs HC. rewrite std_transform_unfold. unfold df_copy.
  apply for_each_scalar; assumption.
Qed.

End RowFilter.

(** ** What [fit] stores *)

Section FitFacts.

Lemma series_scale_map (g : string -> float) (a : float) (l : list string) :
  series_scale (map (fun c => (c, g c)) l) a = map (fun c => (c, g c * a)) l.
Proof. unfold series_scale. rewrite map_map. reflexivity. Qed.

Lemma series_zip_map (f : float -> float -> float) (g h : string -> float)
    (l : list string) :
  series_zip f (map (fun c => (c, g c)) l) (map (fun c => (c, h c)) l)
  = map (fun c => (c, f (g c) (h c))) l.
Proof.
  unfold series_zip. induction l as [|c l IH]; [reflexivity|].
  simpl. f_equal. exact IH.
Qed.

Lemma filter_key_map (g : string -> float) (k : string) (l : list string) :
  filter (fun kv : string * float => kv.1 = k) (map (fun c => (c, g c)) l)
  = map (fun c => (c, g c)) (filter (fun c => c = k) l).
Proof.
  induction l as [|c l IH]; [reflexivity|].
  simpl. rewrite !filter_cons. simpl. rewrite IH.
  destruct (decide (c = k)); reflexivity.
Qed.

Lemma filter_eq_NoDup (k : string) (l : list string) :
  NoDup l -> k ∈ l -> filter (fun c => c = k) l = [k].
Proof.
  induction 1 as [|c l Hc Hl IH]; intros Hk.
  - inversion Hk.
  - rewrite filter_cons. destruct (decide (c = k)) as [->|Hne].
    + f_equal. clear IH Hk Hl. induction l as [|d l IH]; [reflexivity|].
      rewrite filter_cons. rewrite not_elem_of_cons in Hc. destruct Hc as [? ?].
      rewrite decide_False by congruence. auto.
    + apply IH. apply elem_of_cons in Hk as [?|?]; congruence.
Qed.

Lemma series_getitem_map (g : string -> float) (k : string) (l : list string) :
  NoDup l -> k ∈ l ->
  series_getitem (map (fun c => (c, g c)) l) k = Ok (PFloat (g k)).
Proof.
  intros Hl Hk. unfold series_getitem.
  rewrite filter_key_map, filter_eq_NoDup by assumption. reflexivity.
Qed.

Lemma comprehension_map {A B} (f : A -> result B) (g : A -> B) (l : list A) :
  (forall a, a ∈ l -> f a = Ok (g a)) ->
  comprehension f l = Ok (map g l).
Proof.
  induction l as [|a l IH]; intros Hf; [reflexivity|].
  simpl. rewrite Hf by left. simpl. rewrite IH; [reflexivity|].
  intros b ?. apply Hf. by right.
Qed.

Lemma dict_of_pairs_lookup {V} (v : string -> V) (l : list string) (c : string) :
  dict_of_pairs (map (fun c => (c, v c)) l) !! c
  = if decide (c ∈ l) then Some (v c) else None.
Proof.
  unfold dict_of_pairs.
  assert (G : forall d : gmap string V,
    fold_left (fun d kv => <[kv.1 := kv.2]> d) (map (fun c => (c, v c)) l) d !! c
    = if decide (c ∈ l) then Some (v c) else d !! c).
  { induction l as [|a l IH]; intros d.
    - cbn [map fold_left]. rewrite decide_False; [done | apply not_elem_of_nil].
    - cbn [map fold_left fst snd]. rewrite IH. destruct (decide (c ∈ l)) as [Hin|Hin].
      + rewrite decide_True; [done | by right].
      + destruct (decide (c = a)) as [->|Hne].
        * rewrite decide_True by left. apply lookup_insert_eq.
        * rewrite decide_False.
          -- rewrite lookup_insert_ne; done.
          -- rewrite elem_of_cons. tauto. }
  rewrite G. destruct (decide (c ∈ l)); [done | apply lookup_empty].
Qed.

Lemma bounds_of_map (lo hi : string -> float) (cols : list string) :
  NoDup cols ->
  bounds_of (map (fun c => (c, lo c)) cols) (map (fun c => (c, hi c)) cols) cols
  = Ok (dict_of_pairs
          (map (fun c => (c, (PFloat (lo c), PFloat (hi c)))) cols)).
Proof.
  intros Hnd. unfold bounds_of.
  rewrite (comprehension_map _
             (fun c => (c, (PFloat (lo c), PFloat (hi c))))); [reflexivity|].
  intros c Hc. rewrite !series_getitem_map by assumption. reflexivity.
Qed.

Lemma cell_restrict_row (cols : list string) (r : Row) (c : string) :
  c ∈ cols -> cell (restrict_row cols r) c = cell r c.
Proof.
  intros Hc. unfold cell, restrict_row. simpl.
  destruct (row_cells r !! c) as [v|] eqn:E.
  - rewrite (map_lookup_filter_Some_2 _ _ c v); done.
  - rewrite (proj2 (map_lookup_filter_None _ _ c)); [done | by left].
Qed.

Lemma column_values_restrict (cols : list string) (rs : list Row) (c : string) :
  c ∈ cols ->
  column_values (mkDF cols (map (restrict_row cols) rs)) c
  = map (fun r => cell r c) rs.
Proof.
  intros Hc. unfold column_values. simpl. rewrite map_map.
  apply map_ext. intros r. by apply cell_restrict_row.
Qed.

Lemma df_getitem_list_ok (X : DataFrame) (cols : list string) :
  (forall c, c ∈ cols -> c ∈ df_columns X) ->
  df_getitem_list X cols
  = Ok (mkDF cols (map (restrict_row cols) (df_rows X))).
Proof.
  intros HC. unfold df_getitem_list.
  assert (E : filter (fun c => c ∉ df_columns X) cols = []).
  { induction cols as [|c cols IH]; [reflexivity|].
    rewrite filter_cons, decide_False.
    - apply IH. intros d ?. apply HC. by right.
    - intros Hn. apply Hn, HC. left. }
  rewrite E. reflexivity.
Qed.

Lemma df_reduce_restrict (f : list float -> float) (X : DataFrame)
    (cols : list string) :
  df_reduce f (mkDF cols (map (restrict_row cols) (df_rows X)))
  = map (fun c => (c, f (column_values X c))) cols.
Proof.
  unfold df_reduce. cbn [df_columns].
  apply map_ext_in. intros c Hc. f_equal. f_equal.
  apply column_values_restrict. by apply list_elem_of_In.
Qed.

Lemma std_fit_ok (self : Estimator) (X : DataFrame) :
  NoDup (columns self) ->
  (forall c, c ∈ columns self -> c ∈ df_columns X) ->
  OutlierStdRemove.fit self X
  = Ok (set_bounds self
          (dict_of_pairs
             (map (fun c => (c, std_bounds (factor self) X c)) (columns self)))).
Proof.
  intros Hnd HC. unfold OutlierStdRemove.fit.
  rewrite df_getitem_list_ok by assumption. simpl.
  unfold df_mean, df_std. rewrite !df_reduce_restrict.
  rewrite series_scale_map. unfold series_sub, series_add.
  rewrite !series_zip_map. rewrite bounds_of_map by assumption. reflexivity.
Qed.

Lemma iqr_fit_ok (self : Estimator) (X : DataFrame) :
  NoDup (columns self) ->
  (forall c, c ∈ columns self -> c ∈ df_columns X) ->
  OutlierIQRRemove.fit self X
  = Ok (set_bounds self
          (dict_of_pairs
             (map (fun c => (c, iqr_bounds (factor self) X c)) (columns self)))).
Proof.
  intros Hnd HC. unfold OutlierIQRRemove.fit.
  rewrite df_getitem_list_ok by assumption. simpl.
  unfold df_quantile. rewrite !df_reduce_restrict.
  unfold series_sub, series_add. rewrite !series_zip_map.
  rewrite series_scale_map. rewrite !series_zip_map.
  rewrite bounds_of_map by assumption. reflexivity.
Qed.

Lemma df_getitem_list_raise (X : DataFrame) (cols : list string) e :
  df_getitem_list X cols = Raise e ->
  exists c, e = KeyError c /\ c ∈ cols /\ c ∉ df_columns X.
Proof.
  unfold df_getitem_list.
  destruct (filter _ cols) as [|c l] eqn:E; [discriminate|].
  intros [= <-]. exists c. split; [done|].
  assert (Hin : c ∈ filter (fun c => c ∉ df_columns X) cols)
    by (rewrite E; left).
  apply list_elem_of_filter in Hin. tauto.
Qed.

Lemma df_getitem_list_cols (X F : DataFrame) (cols : list string) :
  df_getitem_list X cols = Ok F ->
  forall c, c ∈ cols -> c ∈ df_columns X.
Proof.
  unfold df_getitem_list.
  destruct (filter _ cols) as [|c0 l] eqn:E; [|discriminate].
  intros _ c Hc. destruct (decide (c ∈ df_columns X)) as [|Hn]; [done|].
  assert (Hin : c ∈ filter (fun c => c ∉ df_columns X) cols)
    by (apply list_elem_of_filter; done).
  rewrite E in Hin. inversion Hin.
Qed.

End FitFacts.

(** ** The rows [transform] keeps *)

Section FilterTheorems.

Lemma std_fit_inv (self0 self : Estimator) (X0 : DataFrame) :
  OutlierStdRemove.fit self0 X0 = Ok self ->
  forall c, c ∈ columns self0 -> c ∈ df_columns X0.
Proof.
  unfold OutlierStdRemove.fit. intros Hf.
  apply rbind_ok in Hf as (F & HF & _). eauto using df_getitem_list_cols.
Qed.

Lemma iqr_fit_inv (self0 self : Estimator) (X0 : DataFrame) :
  OutlierIQRRemove.fit self0 X0 = Ok self ->
  forall c, c ∈ columns self0 -> c ∈ df_columns X0.
Proof.
  unfold OutlierIQRRemove.fit. intros Hf.
  apply rbind_ok in Hf as (F & HF & _). eauto using df_getitem_list_cols.
Qed.

Lemma set_bounds_scalar (self : Estimator) (v : string -> float * float) :
  scalar_bounds
    (set_bounds self
       (dict_of_pairs
          (map (fun c => (c, (PFloat (v c).1, PFloat (v c).2))) (columns self)))).
Proof.
  intros c Hc. simpl in *. exists (v c).1, (v c).2.
  rewrite (dict_of_pairs_lookup
             (fun c => (PFloat (v c).1, PFloat (v c).2))).
  rewrite decide_True; done.
Qed.

Lemma fitted_scalar (self0 self : Estimator) (X0 : DataFrame) :
  NoDup (columns self0) ->
  OutlierStdRemove.fit self0 X0 = Ok self \/
  OutlierIQRRemove.fit self0 X0 = Ok self ->
  columns self = columns self0 /\ scalar_bounds self.
Proof.
  intros Hnd [Hf|Hf].
  - pose proof (std_fit_inv _ _ _ Hf) as HC.
    rewrite std_fit_ok in Hf by assumption. injection Hf as <-.
    split; [reflexivity|].
    apply (set_bounds_scalar self0
             (fun c =>
                (nanmean (column_values X0 c)
                 - nanstd (column_values X0 c) * factor self0,
                 nanmean (column_values X0 c)
                 + nanstd (column_values X0 c) * factor self0))).
  - pose proof (iqr_fit_inv _ _ _ Hf) as HC.
    rewrite iqr_fit_ok in Hf by assumption. injection Hf as <-.
    split; [reflexivity|].
    apply (set_bounds_scalar self0
             (fun c =>
                let Q1 := quantile 0.25 (column_values X0 c) in
                let Q3 := quantile 0.75 (column_values X0 c) in
                (Q1 - (Q3 - Q1) * factor self0,
                 Q3 + (Q3 - Q1) * factor self0))).
Qed.

Lemma forallb_perm {A} (f : A -> bool) (l k : list A) :
  l ≡ₚ k -> forallb f l = forallb f k.
Proof.
  induction 1 as [|x l k _ IH|x y l|l k m _ IH1 _ IH2]; simpl.
  - reflexivity.
  - by rewrite IH.
  - destruct (f x), (f y); reflexivity.
  - congruence.
Qed.

Lemma keep_false_column (self : Estimator) (r : Row) :
  scalar_bounds self ->
  keep self r = false ->
  exists c lo hi,
    c ∈ columns self /\ bounds_ self !! c = Some (PFloat lo, PFloat hi) /\
    ((lo <=? cell r c) = false \/ (cell r c <=? hi) = false).
Proof.
  unfold keep, scalar_bounds. intros Hs.
  induction (columns self) as [|c cols IH]; simpl; [discriminate|].
  intros Hk. destruct (row_ok (bounds_ self) r c) eqn:Ec.
  - destruct IH as (c' & lo & hi & Hin & Hb & Hv).
    + intros d ?. apply Hs. by right.
    + exact Hk.
    + exists c', lo, hi. split; [by right | done].
  - destruct (Hs c) as (lo & hi & Hb); [left|].
    exists c, lo, hi. split; [left|]. split; [done|].
    unfold row_ok in Ec. rewrite Hb in Ec. unfold within in Ec.
    apply andb_false_iff in Ec. exact Ec.
Qed.

Lemma keep_true_column (self : Estimator) (r : Row) (c : string) lo hi :
  keep self r = true ->
  c ∈ columns self ->
  bounds_ self !! c = Some (PFloat lo, PFloat hi) ->
  (lo <=? cell r c) = true /\ (cell r c <=? hi) = true.
Proof.
  unfold keep. rewrite forallb_forall. intros Hk Hc Hb.
  specialize (Hk c). rewrite <- list_elem_of_In in Hk. specialize (Hk Hc).
  unfold row_ok in Hk. rewrite Hb in Hk. unfold within in Hk.
  apply andb_true_iff in Hk. exact Hk.
Qed.

Lemma loop_body_inv (self : Estimator) (X X1 : DataFrame) (c : string) :
  loop_body self X c = Ok X1 ->
  (exists lo hi, bounds_ self !! c = Some (PFloat lo, PFloat hi)) /\
  c ∈ df_columns X.
Proof.
  unfold loop_body, dict_getitem. intros Hb.
  destruct (bounds_ self !! c) as [[lower upper]|]; [|discriminate].
  simpl in Hb. unfold df_getitem in Hb.
  destruct (bool_decide (c ∈ df_columns X)) eqn:Ec; [|discriminate].
  apply bool_decide_eq_true_1 in Ec. simpl in Hb.
  destruct lower as [lo|]; [|discriminate].
  destruct upper as [hi|]; [|discriminate].
  eauto.
Qed.

Lemma for_each_inv (self : Estimator) (cols : list string) (C : list string)
    (rs : list Row) (X' : DataFrame) :
  for_each cols (loop_body self) (mkDF C rs) = Ok X' ->
  forall c, c ∈ cols ->
    (exists lo hi, bounds_ self !! c = Some (PFloat lo, PFloat hi)) /\ c ∈ C.
Proof.
  revert rs. induction cols as [|c cols IH]; intros rs Hf d Hd.
  - inversion Hd.
  - cbn [for_each] in Hf. apply rbind_ok in Hf as (X1 & H1 & H2).
    pose proof (loop_body_inv _ _ _ _ H1) as [(lo & hi & Hb) HC].
    simpl in HC.
    rewrite (loop_body_scalar _ _ _ _ lo hi) in H1 by assumption.
    injection H1 as <-.
    apply elem_of_cons in Hd as [->|Hd]; [eauto|].
    eapply IH; eassumption.
Qed.

Lemma transform_ok_inv (self : Estimator) (X X' : DataFrame) :
  OutlierStdRemove.transform self X = Ok X' ->
  scalar_bounds self /\
  (forall c, c ∈ columns self -> c ∈ df_columns X) /\
  X' = mkDF (df_columns X) (filter (fun r => keep self r = true) (df_rows X)).
Proof.
  intros Ht. pose proof Ht as Hi. rewrite std_transform_unfold in Hi.
  unfold df_copy in Hi. pose proof (for_each_inv _ _ _ _ _ Hi) as Hall.
  assert (Hs : scalar_bounds self) by (intros c Hc; apply Hall, Hc).
  assert (HC : forall c, c ∈ columns self -> c ∈ df_columns X)
    by (intros c Hc; apply Hall, Hc).
  split; [done|]. split; [done|].
  rewrite transform_scalar in Ht by assumption. congruence.
Qed.

Lemma filter_idem {A} (P : A -> Prop) `{!forall x, Decision (P x)} (l : list A) :
  filter P (filter P l) = filter P l.
Proof.
  induction l as [|x l IH]; [reflexivity|].
  rewrite filter_cons. destruct (decide (P x)); [|exact IH].
  rewrite filter_cons, decide_True by assumption. by rewrite IH.
Qed.

Lemma transform_index_incl (self : Estimator) (X X' : DataFrame) :
  OutlierStdRemove.transform self X = Ok X' ->
  forall i, i ∈ df_index X' -> i ∈ df_index X.
Proof.
  intros Ht i Hi. apply transform_ok_inv in Ht as (_ & _ & ->).
  unfold df_index in *. cbn [df_rows] in Hi.
  apply list_elem_of_In, in_map_iff in Hi as (r & <- & Hr).
  apply list_elem_of_In, list_elem_of_filter in Hr as [_ Hr].
  apply list_elem_of_In, in_map, list_elem_of_In. exact Hr.
Qed.

End FilterTheorems.

(** C1.  For an estimator fitted by either variant on a column set, and a
    table that has the monitored columns, both [transform] methods return
    the table whose rows are exactly the rows that lie, in every monitored
    column, inside the stored closed interval of that column, in their
    order; a row left out misses the interval of some monitored column;
    and evaluating the columns in another order gives the same table. *)
Theorem transform_keeps_exactly_rows_within_bounds
    (self0 self : Estimator) (X0 X : DataFrame) :
  NoDup (columns self0) ->
  OutlierStdRemove.fit self0 X0 = Ok self \/
  OutlierIQRRemove.fit self0 X0 = Ok self ->
  (forall c, c ∈ columns self -> c ∈ df_columns X) ->
  exists X',
    OutlierStdRemove.transform self X = Ok X' /\
    OutlierIQRRemove.transform self X = Ok X' /\
    df_columns X' = df_columns X /\
    df_rows X' = filter (fun r => keep self r = true) (df_rows X) /\
    (forall r, r ∈ df_rows X' <->
       r ∈ df_rows X /\
       forall c, c ∈ columns self ->
         exists lo hi, bounds_ self !! c = Some (PFloat lo, PFloat hi) /\
           (lo <=? cell r c) = true /\ (cell r c <=? hi) = true) /\
    (forall r, r ∈ df_rows X -> r ∉ df_rows X' ->
       exists c lo hi,
         c ∈ columns self /\ bounds_ self !! c = Some (PFloat lo, PFloat hi) /\
         ((lo <=? cell r c) = false \/ (cell r c <=? hi) = false)) /\
    (forall cols, cols ≡ₚ columns self ->
       OutlierStdRemove.transform (with_columns self cols) X = Ok X' /\
       OutlierIQRRemove.transform (with_columns self cols) X = Ok X').
Proof.
  intros Hnd Hfit HC.
  destruct (fitted_scalar _ _ _ Hnd Hfit) as [_ Hs].
  exists (mkDF (df_columns X) (filter (fun r => keep self r = true) (df_rows X))).
  change (OutlierIQRRemove.transform self X)
    with (OutlierStdRemove.transform self X).
  rewrite transform_scalar by assumption.
  split; [reflexivity|]. split; [reflexivity|]. split; [reflexivity|].
  split; [reflexivity|]. cbn [df_rows]. split; [|split].
  - intros r. rewrite list_elem_of_filter. split.
    + intros [Hk Hr]. split; [done|]. intros c Hc.
      destruct (Hs c Hc) as (lo & hi & Hb). exists lo, hi. split; [done|].
      eapply keep_true_column; eassumption.
    + intros [Hr Hall]. split; [|done].
      unfold keep. apply forallb_forall. intros c Hc.
      apply list_elem_of_In in Hc. destruct (Hall c Hc) as (lo & hi & Hb & H1 & H2).
      unfold row_ok. rewrite Hb. unfold within, Float64.geb, Float64.leb.
      by rewrite H1, H2.
  - intros r Hr Hn. apply keep_false_column; [done|].
    destruct (keep self r) eqn:Ek; [|reflexivity].
    exfalso. apply Hn. apply list_elem_of_filter. done.
  - intros cols Hp.
    change (OutlierIQRRemove.transform (with_columns self cols) X)
      with (OutlierStdRemove.transform (with_columns self cols) X).
    assert (Ht : OutlierStdRemove.transform (with_columns self cols) X
                 = Ok (mkDF (df_columns X)
                         (filter (fun r => keep (with_columns self cols) r = true)
                            (df_rows X)))).
    { apply transform_scalar.
      - intros c Hc. apply Hs. simpl in Hc. by rewrite <- Hp.
      - intros c Hc. apply HC. simpl in Hc. by rewrite <- Hp. }
    rewrite Ht. split; f_equal; f_equal; apply list_filter_iff; intros r;
      unfold keep; simpl; by rewrite (forallb_perm _ _ _ Hp).
Qed.

(** C5.  [transform] with the same bounds is idempotent: a table that
    [transform] returned is returned unchanged when it is transformed
    again, by either variant. *)
Theorem transform_idempotent (self : Estimator) (X X' : DataFrame) :
  OutlierStdRemove.transform self X = Ok X' \/
  OutlierIQRRemove.transform self X = Ok X' ->
  OutlierStdRemove.transform self X' = Ok X' /\
  OutlierIQRRemove.transform self X' = Ok X'.
Proof.
  intros Ht.
  change (OutlierIQRRemove.transform self X)
    with (OutlierStdRemove.transform self X) in Ht.
  assert (H : OutlierStdRemove.transform self X = Ok X') by tauto.
  apply transform_ok_inv in H as (Hs & HC & ->).
  change (OutlierIQRRemove.transform self ?T)
    with (OutlierStdRemove.transform self T).
  rewrite transform_scalar by assumption.
  cbn [df_columns df_rows]. rewrite filter_idem. done.
Qed.

(** ** The order statistics of a column *)

Section OrderStatistics.










End OrderStatistics.

(** ** Mean and standard deviation *)

Section Reductions.



Lemma count_valid_le (xs : list float) : count_valid xs <= length xs.
Proof. apply length_filter. Qed.



Lemma nanstd_few (xs : list float) : length xs < 2 -> nanstd xs = nan.
Proof.
  intros Hn. unfold nanstd, nanvar.
  pose proof (count_valid_le xs).
  destruct (count_valid xs <=? 1)%nat eqn:E.
  - by rewrite div_nan_r.
  - apply Nat.leb_gt in E. lia.
Qed.

Lemma column_values_length (X : DataFrame) (c : string) :
  length (column_values X c) = df_len X.
Proof. unfold column_values, df_len. apply length_map. Qed.

End Reductions.



(** C8.  An estimator on which [fit] was never called has the empty dict
    as [bounds_]: with at least one monitored column, [transform] raises
    the [KeyError] of the first monitored column, whatever the table; with
    no monitored column it returns a copy of the table. *)
Theorem transform_before_fit (c : string) (cols : list string)
    (factor : float) (X : DataFrame) :
  OutlierStdRemove.transform (OutlierStdRemove.init (c :: cols) factor) X
  = Raise (KeyError c) /\
  OutlierIQRRemove.transform (OutlierIQRRemove.init (c :: cols) factor) X
  = Raise (KeyError c) /\
  OutlierStdRemove.transform (OutlierStdRemove.init [] factor) X
  = Ok (df_copy X) /\
  OutlierIQRRemove.transform (OutlierIQRRemove.init [] factor) X
  = Ok (df_copy X).
Proof. repeat split. Qed.

(** C8, as stated, fails: with an empty list of monitored columns
    [transform] before [fit] is no error. *)
Lemma transform_before_fit_no_error :
  OutlierStdRemove.transform
    (OutlierStdRemove.init [] OutlierStdRemove.default_factor) iqr_example
  = Ok iqr_example.
Proof. reflexivity. Qed.

(** ** NaN cells and NaN bounds *)

Section NaN.

Lemma row_ok_nan_value b r c : cell r c = nan -> row_ok b r c = false.
Proof.
  intros Hv. unfold row_ok.
  destruct (b !! c) as [[[lo|] [hi|]]|]; try reflexivity.
  unfold within. by rewrite Hv, geb_nan_l.
Qed.

Lemma row_ok_nan_bound b r c lo hi :
  b !! c = Some (PFloat lo, PFloat hi) -> lo = nan \/ hi = nan ->
  row_ok b r c = false.
Proof.
  intros Hb Hn. unfold row_ok, within. rewrite Hb.
  destruct Hn as [-> | ->].
  - by rewrite geb_nan_r.
  - unfold Float64.leb. rewrite leb_nan_r. apply andb_false_r.
Qed.

Lemma keep_column self r c :
  keep self r = true -> c ∈ columns self -> row_ok (bounds_ self) r c = true.
Proof.
  unfold keep. rewrite forallb_forall. intros Hk Hc.
  apply Hk. by apply list_elem_of_In.
Qed.

Lemma filter_none {A} (P : A -> Prop) `{!forall x, Decision (P x)} (l : list A) :
  (forall x, x ∈ l -> ~ P x) -> filter P l = [].
Proof.
  induction l as [|x l IH]; intros Hn; [reflexivity|].
  rewrite filter_cons, decide_False by (apply Hn; left).
  apply IH. intros y ?. apply Hn. by right.
Qed.

Lemma std_bounds_few (factor : float) (X : DataFrame) (c : string) :
  df_len X < 2 -> std_bounds factor X c = (PFloat nan, PFloat nan).
Proof.
  intros Hn. unfold std_bounds.
  rewrite nanstd_few by (by rewrite column_values_length).
  by rewrite mul_nan_l, sub_nan_r, add_nan_r.
Qed.

End NaN.

(** C10.  In a table [transform] returns, no row holds NaN in a monitored
    column; when a bound of some monitored column is NaN the returned
    table has no row; and [OutlierStdRemove.fit] on a table of fewer than
    two rows stores NaN for both bounds of every monitored column, so
    that [transform] then returns no row. *)
Theorem nan_values_and_nan_bounds_excluded (self : Estimator)
    (X X' : DataFrame) :
  OutlierStdRemove.transform self X = Ok X' \/
  OutlierIQRRemove.transform self X = Ok X' ->
  (forall r c, r ∈ df_rows X' -> c ∈ columns self ->
     is_nan (cell r c) = false) /\
  (forall c lo hi,
     c ∈ columns self -> bounds_ self !! c = Some (PFloat lo, PFloat hi) ->
     is_nan lo = true \/ is_nan hi = true ->
     df_rows X' = []) /\
  (forall (self0 : Estimator) (X0 : DataFrame),
     NoDup (columns self0) -> df_len X0 < 2 ->
     OutlierStdRemove.fit self0 X0 = Ok self ->
     (forall c, c ∈ columns self ->
        bounds_ self !! c = Some (PFloat nan, PFloat nan)) /\
     (columns self <> [] -> df_rows X' = [])).
Proof.
  intros Ht.
  change (OutlierIQRRemove.transform self X)
    with (OutlierStdRemove.transform self X) in Ht.
  assert (H : OutlierStdRemove.transform self X = Ok X') by tauto.
  apply transform_ok_inv in H as (Hs & HC & ->). cbn [df_rows].
  assert (Hnanb : forall c lo hi,
            c ∈ columns self -> bounds_ self !! c = Some (PFloat lo, PFloat hi) ->
            lo = nan \/ hi = nan ->
            filter (fun r => keep self r = true) (df_rows X) = []).
  { intros c lo hi Hc Hb Hn. apply filter_none. intros r _ Hk.
    pose proof (keep_column _ _ _ Hk Hc) as Hok.
    rewrite (row_ok_nan_bound _ _ _ lo hi) in Hok by assumption.
    discriminate. }
  split; [|split].
  - intros r c Hr Hc. apply list_elem_of_filter in Hr as [Hk _].
    pose proof (keep_column _ _ _ Hk Hc) as Hok.
    destruct (is_nan (cell r c)) eqn:En; [|reflexivity].
    apply is_nan_eq in En. rewrite row_ok_nan_value in Hok by assumption.
    discriminate.
  - intros c lo hi Hc Hb Hn. apply (Hnanb c lo hi Hc Hb).
    rewrite <- !is_nan_eq. exact Hn.
  - intros self0 X0 Hnd Hlen Hfit.
    pose proof (std_fit_inv _ _ _ Hfit) as HC0.
    rewrite std_fit_ok in Hfit by assumption.
    injection Hfit as Hself. subst self.
    cbn [columns bounds_ set_bounds] in *.
    assert (Hb : forall c, c ∈ columns self0 ->
              dict_of_pairs
                (map (fun c => (c, std_bounds (factor self0) X0 c))
                   (columns self0)) !! c
              = Some (PFloat nan, PFloat nan)).
    { intros c Hc.
      rewrite (dict_of_pairs_lookup (fun c => std_bounds (factor self0) X0 c)).
      rewrite decide_True by assumption. by rewrite std_bounds_few. }
    split; [exact Hb|].
    intros Hne. destruct (columns self0) as [|c cols] eqn:Ecols; [done|].
    apply (Hnanb c nan nan); [left | apply Hb; left | by left].
Qed.

(** ** Table objects and the store *)

Section Store.

Lemma not_in_dom_weaken (σ σ1 : store) (l : loc) :
  σ ⊆ σ1 -> l ∉ dom σ1 -> l ∉ dom σ.
Proof.
  intros Hs Hn Hin. apply Hn. apply elem_of_dom in Hin as [w Hw].
  apply elem_of_dom. exists w. eapply lookup_weaken; eassumption.
Qed.

Lemma store_alloc_subseteq (σ : store) (v : DataFrame) :
  σ ⊆ <[fresh (dom σ) := v]> σ.
Proof.
  apply insert_subseteq, not_elem_of_dom, is_fresh.
Qed.

Lemma bind_lift {A B} (r : result A) (k : A -> M B) (σ : store) :
  (lift r ≫= k) σ
  = match r with Ok a => k a σ | Raise e => (σ, Raise e) end.
Proof. unfold mbind, M_bind, lift. destruct r; reflexivity. Qed.

Lemma bind_read {B} (l : loc) (k : DataFrame -> M B) (σ : store) v :
  σ !! l = Some v -> (read l ≫= k) σ = k v σ.
Proof. intros Hl. unfold mbind, M_bind, read. by rewrite Hl. Qed.

Lemma bind_getitem {B} (l : loc) (col : string)
    (k : Series Z float -> M B) (σ : store) v :
  σ !! l = Some v ->
  (Stateful.getitem l col ≫= k) σ
  = match df_getitem v col with Ok s => k s σ | Raise e => (σ, Raise e) end.
Proof.
  intros Hl. unfold Stateful.getitem, mbind, M_bind, read, lift.
  rewrite Hl. destruct (df_getitem v col); reflexivity.
Qed.

Lemma mask_st_eq (l : loc) (m : Series Z bool) (σ : store) v :
  σ !! l = Some v ->
  Stateful.mask l m σ
  = (<[fresh (dom σ) := df_mask v m]> σ, Ok (fresh (dom σ))).
Proof.
  intros Hl. unfold Stateful.mask, mbind, M_bind, read, new_frame.
  by rewrite Hl.
Qed.

Lemma copy_st_eq (X : loc) (σ : store) (v : DataFrame) :
  σ !! X = Some v ->
  Stateful.copy X σ
  = (<[fresh (dom σ) := df_copy v]> σ, Ok (fresh (dom σ))).
Proof.
  intros Hx. unfold Stateful.copy, mbind, M_bind, read, new_frame.
  by rewrite Hx.
Qed.

Lemma loop_body_st_eq (self : Estimator) (l : loc) (col : string)
    (σ : store) (v : DataFrame) :
  σ !! l = Some v ->
  loop_body_st self l col σ
  = match loop_body self v col with
    | Ok v' => (<[fresh (dom σ) := v']> σ, Ok (fresh (dom σ)))
    | Raise e => (σ, Raise e)
    end.
Proof.
  intros Hl. unfold loop_body_st, loop_body. rewrite bind_lift.
  destruct (dict_getitem (bounds_ self) col) as [[lower upper]|e];
    [|reflexivity].
  rewrite (bind_getitem _ _ _ _ v Hl).
  change (Ok (lower, upper) ≫= ?k) with (k (lower, upper)). cbv beta iota.
  destruct (df_getitem v col) as [s|e] eqn:Es; [|reflexivity].
  change (Ok s ≫= ?k) with (k s). cbv beta.
  rewrite bind_lift.
  destruct (series_ge s lower) as [m1|e]; [|reflexivity].
  change (Ok m1 ≫= ?k) with (k m1). cbv beta.
  rewrite (bind_getitem _ _ _ _ v Hl), Es.
  change (Ok s ≫= ?k) with (k s). cbv beta.
  rewrite bind_lift.
  destruct (series_le s upper) as [m2|e]; [|reflexivity].
  change (Ok m2 ≫= ?k) with (k m2). cbv beta.
  apply mask_st_eq, Hl.
Qed.

Lemma for_each_st_cons {A S} (x : A) (xs : list A) (body : S -> A -> M S)
    (s : S) (σ : store) :
  for_each_st (x :: xs) body s σ
  = match body s x σ with
    | (σ', Ok s') => for_each_st xs body s' σ'
    | (σ', Raise e) => (σ', Raise e)
    end.
Proof. reflexivity. Qed.

Lemma for_each_st_spec (self : Estimator) (cols : list string) :
  forall (l : loc) (σ : store) (v : DataFrame),
    σ !! l = Some v ->
    σ ⊆ (for_each_st cols (loop_body_st self) l σ).1 /\
    match (for_each_st cols (loop_body_st self) l σ).2,
          for_each cols (loop_body self) v with
    | Ok l', Ok v' =>
        (for_each_st cols (loop_body_st self) l σ).1 !! l' = Some v' /\
        (l' = l \/ l' ∉ dom σ)
    | Raise e, Raise e' => e = e'
    | _, _ => False
    end.
Proof.
  induction cols as [|c cols IH]; intros l σ v Hl.
  - simpl. split; [done|]. split; [done | by left].
  - rewrite for_each_st_cons, (loop_body_st_eq self l c σ v Hl).
    cbn [for_each]. unfold mbind, result_bind.
    destruct (loop_body self v c) as [v1|e]; cbn [rbind fst snd]; [|done].
    pose proof (store_alloc_subseteq σ v1) as Hσ.
    destruct (IH (fresh (dom σ)) (<[fresh (dom σ) := v1]> σ) v1
                (lookup_insert_eq _ _ _)) as [Hsub Hres].
    split; [by etransitivity|].
    destruct (for_each_st cols (loop_body_st self) _ _) as [σ2 [l2|e2]];
      destruct (for_each cols (loop_body self) v1) as [v2|e2'];
      cbn [fst snd] in *; try done.
    destruct Hres as [Hl2 Hfresh]. split; [done|]. right.
    destruct Hfresh as [->|Hn].
    + apply is_fresh.
    + eapply not_in_dom_weaken; eassumption.
Qed.

Lemma transform_st_spec (self : Estimator) (X : loc) (σ : store)
    (v : DataFrame) :
  σ !! X = Some v ->
  σ ⊆ (Stateful.transform self X σ).1 /\
  match (Stateful.transform self X σ).2, OutlierStdRemove.transform self v with
  | Ok l', Ok v' =>
      (Stateful.transform self X σ).1 !! l' = Some v' /\ l' ∉ dom σ
  | Raise e, Raise e' => e = e'
  | _, _ => False
  end.
Proof.
  intros Hx.
  change (Stateful.transform self X σ)
    with ((Stateful.copy X ≫= for_each_st (columns self) (loop_body_st self)) σ).
  unfold mbind, M_bind. rewrite (copy_st_eq X σ v Hx).
  pose proof (store_alloc_subseteq σ (df_copy v)) as Hσ.
  destruct (for_each_st_spec self (columns self) (fresh (dom σ))
              (<[fresh (dom σ) := df_copy v]> σ) (df_copy v)
              (lookup_insert_eq _ _ _)) as [Hsub Hres].
  split; [by etransitivity|].
  rewrite std_transform_unfold.
  destruct (for_each_st (columns self) (loop_body_st self) _ _)
    as [σ2 [l2|e2]];
    destruct (for_each (columns self) (loop_body self) (df_copy v))
      as [v2|e2']; cbn [fst snd] in *; try done.
  destruct Hres as [Hl2 Hfresh]. split; [done|].
  destruct Hfresh as [->|Hn].
  - apply is_fresh.
  - eapply not_in_dom_weaken; eassumption.
Qed.

Lemma bind_getitem_list {B} (X : loc) (cols : list string) (k : loc -> M B)
    (σ : store) v :
  σ !! X = Some v ->
  (Stateful.getitem_list X cols ≫= k) σ
  = match df_getitem_list v cols with
    | Ok F => k (fresh (dom σ)) (<[fresh (dom σ) := F]> σ)
    | Raise e => (σ, Raise e)
    end.
Proof.
  intros Hx. unfold Stateful.getitem_list, mbind, M_bind, read, lift, new_frame.
  rewrite Hx. destruct (df_getitem_list v cols); reflexivity.
Qed.

Lemma std_fit_st_eq (self : Estimator) (X : loc) (σ : store) (v : DataFrame) :
  σ !! X = Some v ->
  Stateful.std_fit self X σ
  = (match df_getitem_list v (columns self) with
     | Ok F => <[fresh (dom σ) := F]> σ
     | Raise _ => σ
     end, OutlierStdRemove.fit self v).
Proof.
  intros Hx.
  unfold Stateful.std_fit, OutlierStdRemove.fit.
  rewrite (bind_getitem_list _ _ _ _ v Hx).
  destruct (df_getitem_list v (columns self)) as [F|e]; [|reflexivity].
  rewrite (bind_read _ _ _ F) by apply lookup_insert_eq.
  rewrite bind_lift. change (Ok F ≫= ?k) with (k F). cbv beta.
  destruct (bounds_of _ _ _); reflexivity.
Qed.

Lemma iqr_fit_st_eq (self : Estimator) (X : loc) (σ : store) (v : DataFrame) :
  σ !! X = Some v ->
  Stateful.iqr_fit self X σ
  = (match df_getitem_list v (columns self) with
     | Ok F => <[fresh (dom σ) := F]> σ
     | Raise _ => σ
     end, OutlierIQRRemove.fit self v).
Proof.
  intros Hx.
  unfold Stateful.iqr_fit, OutlierIQRRemove.fit.
  rewrite (bind_getitem_list _ _ _ _ v Hx).
  destruct (df_getitem_list v (columns self)) as [F|e]; [|reflexivity].
  rewrite (bind_read _ _ _ F) by apply lookup_insert_eq.
  rewrite bind_lift. change (Ok F ≫= ?k) with (k F). cbv beta.
  destruct (bounds_of _ _ _); reflexivity.
Qed.

Lemma fit_store_subseteq (σ : store) (r : result DataFrame) :
  σ ⊆ match r with Ok F => <[fresh (dom σ) := F]> σ | Raise _ => σ end.
Proof. destruct r; [apply store_alloc_subseteq | done]. Qed.

End Store.

(** C9.  With tables as objects of a store: [fit] (either variant) and
    [transform] leave every table object that existed before the call as
    it was, the argument among them, also when they raise; the table
    [transform] returns is an object that did not exist before the call,
    so it is not the argument, and it holds the table the method computes
    from the argument's value. *)
Theorem fit_transform_do_not_mutate_input (self : Estimator) (X : loc)
    (σ : store) (v : DataFrame) :
  σ !! X = Some v ->
  (σ ⊆ (Stateful.std_fit self X σ).1 /\
   (Stateful.std_fit self X σ).1 !! X = Some v /\
   (Stateful.std_fit self X σ).2 = OutlierStdRemove.fit self v) /\
  (σ ⊆ (Stateful.iqr_fit self X σ).1 /\
   (Stateful.iqr_fit self X σ).1 !! X = Some v /\
   (Stateful.iqr_fit self X σ).2 = OutlierIQRRemove.fit self v) /\
  (σ ⊆ (Stateful.transform self X σ).1 /\
   (Stateful.transform self X σ).1 !! X = Some v /\
   match (Stateful.transform self X σ).2 with
   | Ok l =>
       l <> X /\ (l ∉ dom σ) /\
       exists v', (Stateful.transform self X σ).1 !! l = Some v' /\
                  OutlierStdRemove.transform self v = Ok v' /\
                  OutlierIQRRemove.transform self v = Ok v'
   | Raise e =>
       OutlierStdRemove.transform self v = Raise e /\
       OutlierIQRRemove.transform self v = Raise e
   end).
Proof.
  intros Hx. split; [|split].
  - rewrite (std_fit_st_eq self X σ v Hx). cbn [fst snd].
    pose proof (fit_store_subseteq σ (df_getitem_list v (columns self))) as Hs.
    split; [done|]. split; [|reflexivity].
    eapply lookup_weaken; eassumption.
  - rewrite (iqr_fit_st_eq self X σ v Hx). cbn [fst snd].
    pose proof (fit_store_subseteq σ (df_getitem_list v (columns self))) as Hs.
    split; [done|]. split; [|reflexivity].
    eapply lookup_weaken; eassumption.
  - destruct (transform_st_spec self X σ v Hx) as [Hs Hres].
    split; [done|]. split; [eapply lookup_weaken; eassumption|].
    change (OutlierIQRRemove.transform self v)
      with (OutlierStdRemove.transform self v).
    destruct ((Stateful.transform self X σ).2) as [l|e];
      destruct (OutlierStdRemove.transform self v) as [v'|e']; try done.
    + destruct Hres as [Hl Hn]. split.
      * intros ->. apply Hn. apply elem_of_dom. eauto.
      * split; [done|]. eauto.
    + by subst.
Qed.

(** ** Re-aligning the labels, and the harness *)

Section SeriesLoc.

Context {V : Type}.
Implicit Types (y : Series Z V) (i : Z).

Lemma hits_key y i kv :
  kv ∈ filter (fun kv : Z * V => kv.1 = i) y -> kv.1 = i /\ kv ∈ y.
Proof. intros Hin. by apply list_elem_of_filter in Hin. Qed.

Lemma hits_unique y i :
  NoDup (map fst y) -> length (filter (fun kv : Z * V => kv.1 = i) y) <= 1.
Proof.
  induction y as [|[k v] y IH]; intros Hnd; [simpl; lia|].
  simpl in Hnd. apply NoDup_cons in Hnd as [Hk Hnd].
  rewrite filter_cons. simpl. destruct (decide (k = i)) as [->|Hne].
  - assert (E : filter (fun kv : Z * V => kv.1 = i) y = []).
    { apply filter_none. intros [k' v'] Hin Heq. simpl in Heq. subst k'.
      apply Hk. apply list_elem_of_In, in_map_iff. exists (i, v').
      split; [done | by apply list_elem_of_In]. }
    rewrite E. simpl. lia.
  - by apply IH.
Qed.

Lemma series_loc_elem y (labels : list Z) (yp : Series Z V) :
  series_loc y labels = Ok yp ->
  forall i, i ∈ labels -> exists v, (i, v) ∈ yp /\ (i, v) ∈ y.
Proof.
  revert yp. induction labels as [|j labels IH]; intros yp Hl i Hi.
  - inversion Hi.
  - cbn [series_loc] in Hl.
    destruct (filter (fun kv : Z * V => kv.1 = j) y) as [|[k v] hits] eqn:E;
      [discriminate|].
    apply rbind_ok in Hl as (tl & Htl & Hyp). injection Hyp as <-.
    apply elem_of_cons in Hi as [->|Hi].
    + assert (Hin : (k, v) ∈ filter (fun kv : Z * V => kv.1 = j) y)
        by (rewrite E; left).
      apply hits_key in Hin as [Hk Hy]. simpl in Hk. subst k.
      exists v. split; [left | done].
    + destruct (IH tl Htl i Hi) as (w & Hw & Hy). exists w. split; [|done].
      right. apply elem_of_app. by right.
Qed.

Lemma series_loc_index y (labels : list Z) (yp : Series Z V) :
  NoDup (map fst y) ->
  series_loc y labels = Ok yp ->
  map fst yp = labels /\ length yp = length labels.
Proof.
  intros Hnd. revert yp.
  induction labels as [|j labels IH]; intros yp Hl.
  - injection Hl as <-. done.
  - cbn [series_loc] in Hl. pose proof (hits_unique y j Hnd) as Hu.
    destruct (filter (fun kv : Z * V => kv.1 = j) y) as [|[k v] hits] eqn:E;
      [discriminate|].
    apply rbind_ok in Hl as (tl & Htl & Hyp). injection Hyp as <-.
    destruct hits; [|simpl in Hu; lia].
    assert (Hin : (k, v) ∈ filter (fun kv : Z * V => kv.1 = j) y)
      by (rewrite E; left).
    apply hits_key in Hin as [Hk _]. simpl in Hk. subst k.
    destruct (IH tl Htl) as [Hi Hlen]. simpl. by rewrite Hi, Hlen.
Qed.

Lemma series_loc_ok y (labels : list Z) :
  (forall i, i ∈ labels -> i ∈ map fst y) ->
  exists yp, series_loc y labels = Ok yp.
Proof.
  induction labels as [|j labels IH]; intros Hall; [by eexists|].
  destruct IH as [tl Htl]; [intros i ?; apply Hall; by right|].
  cbn [series_loc]. rewrite Htl.
  destruct (filter (fun kv : Z * V => kv.1 = j) y) as [|kv hits] eqn:E.
  - exfalso. assert (Hj : j ∈ map fst y) by (apply Hall; left).
    apply list_elem_of_In, in_map_iff in Hj as ([k v] & Hk & Hin).
    simpl in Hk. subst k.
    assert (H' : (j, v) ∈ filter (fun kv : Z * V => kv.1 = j) y)
      by (apply list_elem_of_filter; split; [done | by apply list_elem_of_In]).
    rewrite E in H'. inversion H'.
  - by eexists.
Qed.

(** After a [transform] of this module the labels can be re-aligned: the
    surviving row identifiers are identifiers of the partition. *)
Lemma realign_after_transform (self : Estimator) (X X' : DataFrame) y :
  OutlierStdRemove.transform self X = Ok X' ->
  map fst y = df_index X ->
  exists yp, series_loc y (df_index X') = Ok yp.
Proof.
  intros Ht Hy. apply series_loc_ok. intros i Hi. rewrite Hy.
  eapply transform_index_incl; eassumption.
Qed.

End SeriesLoc.

Section ComparerFacts.

Context {Label Model P : Type} `{Transformer P}.
Variable clone_model : Model -> Model.
Variable model_fit : Model -> DataFrame -> Series Z Label -> result Model.
Variable model_score : Model -> DataFrame -> Series Z Label -> result float.
Variable train_test_split :
  DataFrame -> Series Z Label -> float -> Z ->
  result (DataFrame * DataFrame * Series Z Label * Series Z Label).

Local Abbreviation run :=
  (compare_run clone_model model_fit model_score train_test_split).

(** What a successful call went through. *)
Lemma compare_run_inv (self : ModelComparer) X y test_size random_state
    (r : Run (Label := Label) (P := P)) :
  run self X y test_size random_state = Ok r ->
  train_test_split X y test_size random_state
  = Ok (X_train r, X_test r, y_train r, y_test r) /\
  (exists m,
     model_fit (clone_model (model self)) (X_train r) (y_train r) = Ok m /\
     model_score m (X_test r) (y_test r) = Ok (raw_score r)) /\
  match preprocessor self with
  | None =>
      branch r = None /\
      results r
      = [("Raw", mkResultRow (raw_score r) (df_len (X_train r))
                   (df_len (X_test r)))]
  | Some pre =>
      exists b,
        branch r = Some b /\
        t_fit (t_clone pre) (X_train r) = Ok (processor b) /\
        t_transform (processor b) (X_train r) = Ok (X_train_processed b) /\
        t_transform (processor b) (X_test r) = Ok (X_test_processed b) /\
        series_loc (y_train r) (df_index (X_train_processed b))
        = Ok (y_train_processed b) /\
        series_loc (y_test r) (df_index (X_test_processed b))
        = Ok (y_test_processed b) /\
        (exists m,
           model_fit (clone_model (model self)) (X_train_processed b)
             (y_train_processed b) = Ok m /\
           model_score m (X_test_processed b) (y_test_processed b)
           = Ok (processed_score b)) /\
        results r
        = [("Raw", mkResultRow (raw_score r) (df_len (X_train r))
                     (df_len (X_test r)));
           ("Processed",
            mkResultRow (processed_score b) (df_len (X_train_processed b))
              (df_len (X_test_processed b)))]
  end.
Proof.
  unfold compare_run. intros Hr.
  apply rbind_ok in Hr as ([[[Xtr Xte] ytr] yte] & Hsplit & Hr).
  apply rbind_ok in Hr as (m & Hfit & Hr).
  apply rbind_ok in Hr as (s & Hscore & Hr).
  destruct (preprocessor self) as [pre|].
  - apply rbind_ok in Hr as (p & Hp & Hr).
    apply rbind_ok in Hr as (Xtrp & Htr & Hr).
    apply rbind_ok in Hr as (Xtep & Hte & Hr).
    apply rbind_ok in Hr as (ytrp & Hytr & Hr).
    apply rbind_ok in Hr as (ytep & Hyte & Hr).
    apply rbind_ok in Hr as (m' & Hfit' & Hr).
    apply rbind_ok in Hr as (s' & Hscore' & Hr).
    injection Hr as <-. cbn.
    split; [done|]. split; [eauto|].
    eexists. split; [reflexivity|]. cbn. repeat (split; [done|]).
    split; [eauto | reflexivity].
  - injection Hr as <-. cbn. split; [done|]. split; [eauto|]. done.
Qed.


Lemma compare_inv (self self' : ModelComparer) X y test_size random_state
    (T : ResultTable) :
  compare clone_model model_fit model_score train_test_split
    self X y test_size random_state = Ok (self', T) ->
  exists r,
    run self X y test_size random_state = Ok r /\ T = results r /\
    self' = mkComparer (model self) (preprocessor self) (Some T).
Proof.
  unfold compare. intros Hc. apply rbind_ok in Hc as (r & Hr & Hc).
  injection Hc as <- <-. eauto.
Qed.

(** X18.  In a call of [compare] that went through the processed branch,
    with the labels of each partition carrying each row identifier once:
    the re-aligned training labels are as many as the rows of the
    transformed training table and carry their row identifiers in the
    same order, and so for the test partition; every surviving row
    identifier has its entry, taken from the labels of its partition. *)
Theorem labels_realigned_with_filtered_rows (self : ModelComparer)
    X y test_size random_state (r : Run (Label := Label) (P := P))
    (b : Branch) :
  run self X y test_size random_state = Ok r ->
  branch r = Some b ->
  NoDup (map fst (y_train r)) ->
  NoDup (map fst (y_test r)) ->
  df_len (X_train_processed b) = length (y_train_processed b) /\
  df_len (X_test_processed b) = length (y_test_processed b) /\
  map fst (y_train_processed b) = df_index (X_train_processed b) /\
  map fst (y_test_processed b) = df_index (X_test_processed b) /\
  (forall i, i ∈ df_index (X_train_processed b) ->
     exists v, (i, v) ∈ y_train_processed b /\ (i, v) ∈ y_train r) /\
  (forall i, i ∈ df_index (X_test_processed b) ->
     exists v, (i, v) ∈ y_test_processed b /\ (i, v) ∈ y_test r).
Proof.
  intros Hr Hb Htr Hte.
  apply compare_run_inv in Hr as (_ & _ & Hpre).
  destruct (preprocessor self) as [pre|].
  - destruct Hpre as (b' & Hb' & _ & _ & _ & Hytr & Hyte & _).
    rewrite Hb in Hb'. injection Hb' as <-.
    destruct (series_loc_index _ _ _ Htr Hytr) as [Hi1 Hl1].
    destruct (series_loc_index _ _ _ Hte Hyte) as [Hi2 Hl2].
    unfold df_len, df_index in *. rewrite Hl1, Hl2, !length_map.
    repeat (split; [done|]).
    split; eauto using series_loc_elem.
  - destruct Hpre as [Hn _]. congruence.
Qed.

(** C7.  [compare] returns the table it stores in [results_]: one row
    per branch in order, "Raw" first and always, "Processed" second and
    present exactly when a preprocessor was given; a row holds the score
    the model reached in the branch and the numbers of training and test
    rows the branch used. *)
Theorem compare_result_table (self self' : ModelComparer)
    X y test_size random_state (T : ResultTable) :
  compare clone_model model_fit model_score train_test_split
    self X y test_size random_state = Ok (self', T) ->
  results_ self' = Some T /\
  exists r : Run (Label := Label) (P := P),
    run self X y test_size random_state = Ok r /\
    (exists m,
       model_fit (clone_model (model self)) (X_train r) (y_train r) = Ok m /\
       model_score m (X_test r) (y_test r) = Ok (raw_score r)) /\
    match preprocessor self with
    | None =>
        branch r = None /\
        map fst T = ["Raw"] /\
        T = [("Raw", mkResultRow (raw_score r) (df_len (X_train r))
                       (df_len (X_test r)))]
    | Some _ =>
        exists b,
          branch r = Some b /\
          map fst T = ["Raw"; "Processed"] /\
          T = [("Raw", mkResultRow (raw_score r) (df_len (X_train r))
                         (df_len (X_test r)));
               ("Processed",
                mkResultRow (processed_score b)
                  (df_len (X_train_processed b))
                  (df_len (X_test_processed b)))] /\
          (exists m,
             model_fit (clone_model (model self)) (X_train_processed b)
               (y_train_processed b) = Ok m /\
             model_score m (X_test_processed b) (y_test_processed b)
             = Ok (processed_score b))
    end.
Proof.
  intros Hc. apply compare_inv in Hc as (r & Hr & -> & ->).
  split; [reflexivity|]. exists r. split; [done|].
  apply compare_run_inv in Hr as (_ & Hraw & Hpre). split; [done|].
  destruct (preprocessor self) as [pre|].
  - destruct Hpre as (b & Hb & _ & _ & _ & _ & _ & Hm & ->).
    exists b. done.
  - destruct Hpre as [Hb ->]. done.
Qed.

(** The fitted preprocessor of a run is the clone of the given one, fitted
    on the training partition. *)
Lemma processor_fitted_on_train (self : ModelComparer)
    X y test_size random_state (r : Run (Label := Label) (P := P))
    (b : Branch) :
  run self X y test_size random_state = Ok r ->
  branch r = Some b ->
  exists pre,
    preprocessor self = Some pre /\
    t_fit (t_clone pre) (X_train r) = Ok (processor b).
Proof.
  intros Hr Hb. apply compare_run_inv in Hr as (_ & _ & Hpre).
  destruct (preprocessor self) as [pre|].
  - destruct Hpre as (b' & Hb' & Hfit & _). rewrite Hb in Hb'.
    injection Hb' as <-. eauto.
  - destruct Hpre as [Hn _]. congruence.
Qed.

End ComparerFacts.

(** C4.  In [compare] the fitted preprocessor is the clone of the given
    one fitted on the training partition: two calls on the same harness
    whose training partitions are equal end with the same fitted
    preprocessor, hence the same [bounds_], whatever the rest of the two
    datasets (test rows, labels) holds. *)
Theorem bounds_depend_on_training_partition_only {Label Model : Type}
    (clone_model : Model -> Model)
    (model_fit : Model -> DataFrame -> Series Z Label -> result Model)
    (model_score : Model -> DataFrame -> Series Z Label -> result float)
    (train_test_split :
       DataFrame -> Series Z Label -> float -> Z ->
       result (DataFrame * DataFrame * Series Z Label * Series Z Label))
    (self : ModelComparer (Model := Model) (P := Preprocessor))
    (X X' : DataFrame) (y y' : Series Z Label)
    (test_size test_size' : float) (random_state random_state' : Z)
    (r r' : Run (Label := Label) (P := Preprocessor))
    (b b' : Branch (Label := Label) (P := Preprocessor)) :
  compare_run clone_model model_fit model_score train_test_split
    self X y test_size random_state = Ok r ->
  compare_run clone_model model_fit model_score train_test_split
    self X' y' test_size' random_state' = Ok r' ->
  X_train r = X_train r' ->
  branch r = Some b ->
  branch r' = Some b' ->
  processor b = processor b' /\
  bounds_ (estimator_of (processor b))
  = bounds_ (estimator_of (processor b')) /\
  exists pre,
    preprocessor self = Some pre /\
    t_fit (t_clone pre) (X_train r) = Ok (processor b).
Proof.
  intros Hr Hr' Htrain Hb Hb'.
  destruct (processor_fitted_on_train _ _ _ _ _ _ _ _ _ _ _ Hr Hb)
    as (pre & Hpre & Hfit).
  destruct (processor_fitted_on_train _ _ _ _ _ _ _ _ _ _ _ Hr' Hb')
    as (pre' & Hpre' & Hfit').
  rewrite Hpre in Hpre'. injection Hpre' as <-.
  rewrite <- Htrain, Hfit in Hfit'. injection Hfit' as Heq.
  split; [done|]. split; [by rewrite Heq|]. eauto.
Qed.

(** ** The theorems at work on the worked instances *)

Lemma iqr_fitted_is_fitted :
  OutlierIQRRemove.fit
    (OutlierIQRRemove.init ["v"] OutlierIQRRemove.default_factor) iqr_example
  = Ok iqr_fitted.
Proof. vm_compute. reflexivity. Defined.

Lemma NoDup_v : NoDup ["v"].
Proof. apply NoDup_singleton. Defined.

Lemma transform_keeps_exactly_rows_within_bounds_witness :
  NoDup ["v"] /\
  OutlierIQRRemove.fit
    (OutlierIQRRemove.init ["v"] OutlierIQRRemove.default_factor) iqr_example
  = Ok iqr_fitted /\
  exists X',
    OutlierIQRRemove.transform iqr_fitted iqr_example = Ok X' /\
    df_rows X' = filter (fun r => keep iqr_fitted r = true) (df_rows iqr_example).
Proof.
  split; [exact NoDup_v|]. split; [exact iqr_fitted_is_fitted|].
  destruct (transform_keeps_exactly_rows_within_bounds
              (OutlierIQRRemove.init ["v"] OutlierIQRRemove.default_factor)
              iqr_fitted iqr_example iqr_example NoDup_v
              (or_intror iqr_fitted_is_fitted) (fun c Hc => Hc))
    as (X' & _ & Ht & _ & Hrows & _).
  exists X'. split; assumption.
Defined.

Lemma iqr_transform_filtered :
  OutlierIQRRemove.transform iqr_fitted iqr_example = Ok iqr_filtered.
Proof. vm_compute. reflexivity. Defined.

Lemma transform_idempotent_witness :
  OutlierIQRRemove.transform iqr_fitted iqr_example = Ok iqr_filtered /\
  OutlierIQRRemove.transform iqr_fitted iqr_filtered = Ok iqr_filtered.
Proof.
  split; [exact iqr_transform_filtered|].
  exact (proj2 (transform_idempotent iqr_fitted iqr_example iqr_filtered
                  (or_intror iqr_transform_filtered))).
Defined.


Lemma nan_transform_empty :
  OutlierStdRemove.transform nan_fitted iqr_example = Ok (mkDF ["v"] []).
Proof. vm_compute. reflexivity. Defined.

Lemma nan_fitted_is_fitted :
  OutlierStdRemove.fit
    (OutlierStdRemove.init ["v"] OutlierStdRemove.default_factor) one_row
  = Ok nan_fitted.
Proof. vm_compute. reflexivity. Defined.

Lemma one_row_short : df_len one_row < 2.
Proof. vm_compute. constructor. Defined.

Lemma nan_values_and_nan_bounds_excluded_witness :
  OutlierStdRemove.transform nan_fitted iqr_example = Ok (mkDF ["v"] []) /\
  OutlierStdRemove.fit
    (OutlierStdRemove.init ["v"] OutlierStdRemove.default_factor) one_row
  = Ok nan_fitted /\
  bounds_ nan_fitted !! "v" = Some (PFloat nan, PFloat nan).
Proof.
  split; [exact nan_transform_empty|]. split; [exact nan_fitted_is_fitted|].
  destruct (nan_values_and_nan_bounds_excluded nan_fitted iqr_example
              (mkDF ["v"] []) (or_introl nan_transform_empty))
    as (_ & _ & Hfew).
  destruct (Hfew (OutlierStdRemove.init ["v"] OutlierStdRemove.default_factor)
              one_row NoDup_v one_row_short nan_fitted_is_fitted)
    as [Hb _].
  apply Hb. apply list_elem_of_here.
Defined.

Lemma one_table_lookup : one_table !! 1%positive = Some iqr_example.
Proof. reflexivity. Defined.

Lemma fit_transform_do_not_mutate_input_witness :
  one_table !! 1%positive = Some iqr_example /\
  (Stateful.iqr_fit iqr_fitted 1%positive one_table).1 !! 1%positive
  = Some iqr_example /\
  (Stateful.transform iqr_fitted 1%positive one_table).1 !! 1%positive
  = Some iqr_example.
Proof.
  split; [exact one_table_lookup|].
  destruct (fit_transform_do_not_mutate_input iqr_fitted 1%positive
              one_table iqr_example one_table_lookup)
    as (_ & (_ & Hfit & _) & (_ & Ht & _)).
  split; assumption.
Defined.

Lemma demo_runs :
  exists r b r' b',
    demo_run demo_X = Ok r /\ branch r = Some b /\
    demo_run demo_X' = Ok r' /\ branch r' = Some b' /\
    X_train r = X_train r' /\
    NoDup (map fst (y_train r)) /\ NoDup (map fst (y_test r)).
Proof.
  do 4 eexists.
  split; [vm_compute; reflexivity|]. split; [reflexivity|].
  split; [vm_compute; reflexivity|]. split; [reflexivity|].
  split; [reflexivity|].
  split; cbn [y_train y_test map fst];
    refine (@bool_decide_unpack _ (NoDup_dec _) _); vm_compute; exact I.
Defined.

Lemma bounds_depend_on_training_partition_only_witness :
  exists r b r' b',
    demo_run demo_X = Ok r /\ branch r = Some b /\
    demo_run demo_X' = Ok r' /\ branch r' = Some b' /\
    X_train r = X_train r' /\ X_test r <> X_test r' /\
    bounds_ (estimator_of (processor b))
    = bounds_ (estimator_of (processor b')).
Proof.
  destruct demo_runs
    as (r & b & r' & b' & Hr & Hb & Hr' & Hb' & Htrain & _).
  exists r, b, r', b'. repeat (split; [assumption|]).
  split.
  - unfold demo_run in Hr, Hr'. vm_compute in Hr, Hr'.
    injection Hr as <-. injection Hr' as <-. vm_compute. discriminate.
  - exact (proj1 (proj2 (bounds_depend_on_training_partition_only
                           mean_clone mean_fit mean_score holdout_split
                           demo_comparer demo_X demo_X' demo_y demo_y
                           default_test_size default_test_size
                           default_random_state default_random_state
                           r r' b b' Hr Hr' Htrain Hb Hb'))).
Defined.

Lemma labels_realigned_with_filtered_rows_witness :
  exists r b,
    demo_run demo_X = Ok r /\ branch r = Some b /\
    NoDup (map fst (y_train r)) /\ NoDup (map fst (y_test r)) /\
    df_len (X_train_processed b) = length (y_train_processed b) /\
    df_len (X_test_processed b) = length (y_test_processed b).
Proof.
  destruct demo_runs
    as (r & b & _ & _ & Hr & Hb & _ & _ & _ & Hn1 & Hn2).
  exists r, b. repeat (split; [assumption|]).
  destruct (labels_realigned_with_filtered_rows
              mean_clone mean_fit mean_score holdout_split
              demo_comparer demo_X demo_y
              default_test_size default_random_state r b Hr Hb Hn1 Hn2)
    as (H1 & H2 & _).
  split; assumption.
Defined.

Lemma demo_compare :
  exists self' T,
    compare mean_clone mean_fit mean_score holdout_split
      demo_comparer demo_X demo_y default_test_size default_random_state
    = Ok (self', T).
Proof. do 2 eexists. vm_compute. reflexivity. Defined.

Lemma compare_result_table_witness :
  exists self' T,
    compare mean_clone mean_fit mean_score holdout_split
      demo_comparer demo_X demo_y default_test_size default_random_state
    = Ok (self', T) /\
    results_ self' = Some T /\
    map fst T = ["Raw"; "Processed"] /\
    map (fun kv => Train_Samples kv.2) T = [4; 3]%nat /\
    map (fun kv => Test_Samples kv.2) T = [1; 1]%nat.
Proof.
  destruct demo_compare as (self' & T & Hc).
  exists self', T. split; [exact Hc|].
  destruct (compare_result_table mean_clone mean_fit mean_score holdout_split
              demo_comparer self' demo_X demo_y
              default_test_size default_random_state T Hc)
    as (Hres & r & Hr & _ & Hpre).
  split; [exact Hres|].
  cbn [preprocessor demo_comparer comparer_init] in Hpre.
  destruct Hpre as (b & Hb & Hlabels & HT & _).
  split; [exact Hlabels|].
  vm_compute in Hr. injection Hr as <-. vm_compute in Hb. injection Hb as <-.
  rewrite HT. split; vm_compute; reflexivity.
Defined.

(** * Further properties of the estimators and of the harness *)

(** ** [fit] on any list of column names *)

(** What [lower_bounds[col]] gives on a Series over [cols]: the scalar
    when [col] is named once, the Series of its entries otherwise. *)
Definition lookup_value (g : string -> float) (cols : list string)
    (c : string) : pyval :=
  match filter (fun d => d = c) cols with
  | [_] => PFloat (g c)
  | l => PSeries (map (fun d => (d, g d)) l)
  end.

Definition std_lower (factor : float) (X : DataFrame) (c : string) : float :=
  nanmean (column_values X c) - nanstd (column_values X c) * factor.

Definition std_upper (factor : float) (X : DataFrame) (c : string) : float :=
  nanmean (column_values X c) + nanstd (column_values X c) * factor.

Definition iqr_lower (factor : float) (X : DataFrame) (c : string) : float :=
  let Q1 := quantile 0.25 (column_values X c) in
  let Q3 := quantile 0.75 (column_values X c) in
  Q1 - (Q3 - Q1) * factor.

Definition iqr_upper (factor : float) (X : DataFrame) (c : string) : float :=
  let Q1 := quantile 0.25 (column_values X c) in
  let Q3 := quantile 0.75 (column_values X c) in
  Q3 + (Q3 - Q1) * factor.

Definition stored_bounds (lo hi : string -> float) (cols : list string)
  : gmap string (pyval * pyval) :=
  dict_of_pairs
    (map (fun c => (c, (lookup_value lo cols c, lookup_value hi cols c)))
       cols).

Section FitAnyColumns.

Lemma filter_eq_all (c : string) (cols : list string) (d : string) :
  d ∈ filter (fun d => d = c) cols -> d = c.
Proof. intros Hd. by apply list_elem_of_filter in Hd as [? _]. Qed.

Lemma series_getitem_any (g : string -> float) (cols : list string)
    (c : string) :
  c ∈ cols ->
  series_getitem (map (fun d => (d, g d)) cols) c
  = Ok (lookup_value g cols c).
Proof.
  intros Hc. unfold series_getitem, lookup_value. rewrite filter_key_map.
  assert (Hin : c ∈ filter (fun d => d = c) cols)
    by (by apply list_elem_of_filter).
  destruct (filter (fun d => d = c) cols) as [|d [|d' l]] eqn:E.
  - inversion Hin.
  - assert (d = c) by (apply (filter_eq_all c cols); rewrite E; left).
    subst d. reflexivity.
  - reflexivity.
Qed.

Lemma bounds_of_any (lo hi : string -> float) (cols : list string) :
  bounds_of (map (fun c => (c, lo c)) cols) (map (fun c => (c, hi c)) cols)
    cols
  = Ok (stored_bounds lo hi cols).
Proof.
  unfold bounds_of, stored_bounds.
  rewrite (comprehension_map _
             (fun c => (c, (lookup_value lo cols c, lookup_value hi cols c))));
    [reflexivity|].
  intros c Hc. rewrite !series_getitem_any by assumption. reflexivity.
Qed.

Lemma std_fit_any (self : Estimator) (X : DataFrame) :
  (forall c, c ∈ columns self -> c ∈ df_columns X) ->
  OutlierStdRemove.fit self X
  = Ok (set_bounds self
          (stored_bounds (std_lower (factor self) X)
             (std_upper (factor self) X) (columns self))).
Proof.
  intros HC. unfold OutlierStdRemove.fit.
  rewrite df_getitem_list_ok by assumption. simpl.
  unfold df_mean, df_std. rewrite !df_reduce_restrict.
  rewrite series_scale_map. unfold series_sub, series_add.
  rewrite !series_zip_map.
  rewrite (bounds_of_any (std_lower (factor self) X)
             (std_upper (factor self) X)). reflexivity.
Qed.

Lemma iqr_fit_any (self : Estimator) (X : DataFrame) :
  (forall c, c ∈ columns self -> c ∈ df_columns X) ->
  OutlierIQRRemove.fit self X
  = Ok (set_bounds self
          (stored_bounds (iqr_lower (factor self) X)
             (iqr_upper (factor self) X) (columns self))).
Proof.
  intros HC. unfold OutlierIQRRemove.fit.
  rewrite df_getitem_list_ok by assumption. simpl.
  unfold df_quantile. rewrite !df_reduce_restrict.
  unfold series_sub, series_add. rewrite !series_zip_map.
  rewrite series_scale_map. rewrite !series_zip_map.
  rewrite (bounds_of_any (iqr_lower (factor self) X)
             (iqr_upper (factor self) X)). reflexivity.
Qed.

Lemma stored_bounds_lookup (lo hi : string -> float) (cols : list string)
    (c : string) :
  stored_bounds lo hi cols !! c
  = if decide (c ∈ cols)
    then Some (lookup_value lo cols c, lookup_value hi cols c)
    else None.
Proof.
  unfold stored_bounds.
  apply (dict_of_pairs_lookup
           (fun c => (lookup_value lo cols c, lookup_value hi cols c))).
Qed.

Lemma fit_raise_missing (self : Estimator) (X : DataFrame) (e : exn) :
  OutlierStdRemove.fit self X = Raise e \/
  OutlierIQRRemove.fit self X = Raise e ->
  exists c, e = KeyError c /\ c ∈ columns self /\ c ∉ df_columns X.
Proof.
  intros Hr.
  destruct (df_getitem_list X (columns self)) as [F|e'] eqn:E.
  - pose proof (df_getitem_list_cols _ _ _ E) as HC.
    rewrite std_fit_any, iqr_fit_any in Hr by assumption.
    destruct Hr; discriminate.
  - apply df_getitem_list_raise in E as Hm.
    assert (e = e'); [|by subst].
    unfold OutlierStdRemove.fit, OutlierIQRRemove.fit in Hr.
    rewrite E in Hr. simpl in Hr. destruct Hr; congruence.
Qed.

Lemma fit_succeeds_columns (self self' : Estimator) (X : DataFrame) :
  OutlierStdRemove.fit self X = Ok self' ->
  columns self' = columns self /\ factor self' = factor self.
Proof.
  intros Hf. pose proof (std_fit_inv _ _ _ Hf) as HC.
  rewrite std_fit_any in Hf by assumption. by injection Hf as <-.
Qed.

End FitAnyColumns.

(** X1.  [fit] of either class succeeds exactly on the tables that have
    every monitored column.  It then keeps [columns] and [factor] and
    stores a dict whose keys are the monitored columns; on another table
    it raises the [KeyError] of a monitored column the table lacks, and
    nothing else. *)
Theorem fit_succeeds_iff_columns_present (self : Estimator) (X : DataFrame) :
  ((forall c, c ∈ columns self -> c ∈ df_columns X) ->
   exists b b',
     OutlierStdRemove.fit self X = Ok (set_bounds self b) /\
     OutlierIQRRemove.fit self X = Ok (set_bounds self b') /\
     (forall c, is_Some (b !! c) <-> c ∈ columns self) /\
     (forall c, is_Some (b' !! c) <-> c ∈ columns self)) /\
  (forall self',
     OutlierStdRemove.fit self X = Ok self' \/
     OutlierIQRRemove.fit self X = Ok self' ->
     columns self' = columns self /\ factor self' = factor self /\
     forall c, c ∈ columns self -> c ∈ df_columns X) /\
  (forall e,
     OutlierStdRemove.fit self X = Raise e \/
     OutlierIQRRemove.fit self X = Raise e ->
     exists c, e = KeyError c /\ c ∈ columns self /\ c ∉ df_columns X).
Proof.
  split; [|split].
  - intros HC. do 2 eexists.
    split; [by apply std_fit_any|]. split; [by apply iqr_fit_any|].
    split; intros c; rewrite stored_bounds_lookup;
      destruct (decide (c ∈ columns self)); split;
      (done || (intros [? ?]; done) || eauto).
  - intros self' [Hf|Hf].
    + pose proof (std_fit_inv _ _ _ Hf) as HC.
      rewrite std_fit_any in Hf by assumption. injection Hf as <-. done.
    + pose proof (iqr_fit_inv _ _ _ Hf) as HC.
      rewrite iqr_fit_any in Hf by assumption. injection Hf as <-. done.
  - apply fit_raise_missing.
Qed.


(** ** What [fit] depends on *)

Section FitDependence.

Lemma lookup_value_ext (g g' : string -> float) (cols : list string)
    (c : string) :
  (forall d, d ∈ cols -> g d = g' d) -> c ∈ cols ->
  lookup_value g cols c = lookup_value g' cols c.
Proof.
  intros Hg Hc. unfold lookup_value.
  assert (Hsub : forall d, d ∈ filter (fun d => d = c) cols -> d ∈ cols)
    by (intros d Hd; by apply list_elem_of_filter in Hd as [_ ?]).
  destruct (filter (fun d => d = c) cols) as [|d [|d' l]].
  - reflexivity.
  - by rewrite Hg.
  - f_equal. apply map_ext_in. intros x Hx. rewrite Hg; [done|].
    apply Hsub. by apply list_elem_of_In.
Qed.

Lemma stored_bounds_ext (lo lo' hi hi' : string -> float)
    (cols : list string) :
  (forall d, d ∈ cols -> lo d = lo' d) ->
  (forall d, d ∈ cols -> hi d = hi' d) ->
  stored_bounds lo hi cols = stored_bounds lo' hi' cols.
Proof.
  intros Hlo Hhi. unfold stored_bounds. f_equal.
  apply map_ext_in. intros c Hc. apply list_elem_of_In in Hc.
  by rewrite (lookup_value_ext lo lo'), (lookup_value_ext hi hi').
Qed.

End FitDependence.

(** X2.  The bounds [fit] stores depend on the constructor parameters and
    on the values of the monitored columns only: two estimators with the
    same [columns] and [factor], whatever their earlier [bounds_], fitted
    on two tables whose monitored columns hold the same values, row by
    row, store the same dict, whatever the row labels and the other
    columns of the tables are. *)
Theorem fit_depends_on_monitored_columns_only (self self' : Estimator)
    (X Y : DataFrame) :
  columns self' = columns self ->
  factor self' = factor self ->
  (forall c, c ∈ columns self ->
     c ∈ df_columns X /\ c ∈ df_columns Y /\
     column_values X c = column_values Y c) ->
  exists b b',
    OutlierStdRemove.fit self X = Ok (set_bounds self b) /\
    OutlierStdRemove.fit self' Y = Ok (set_bounds self' b) /\
    OutlierIQRRemove.fit self X = Ok (set_bounds self b') /\
    OutlierIQRRemove.fit self' Y = Ok (set_bounds self' b').
Proof.
  intros Hcols Hfac Hsame.
  assert (HX : forall c, c ∈ columns self -> c ∈ df_columns X)
    by (intros c Hc; apply Hsame, Hc).
  assert (HY : forall c, c ∈ columns self' -> c ∈ df_columns Y)
    by (intros c Hc; rewrite Hcols in Hc; apply Hsame, Hc).
  do 2 eexists.
  rewrite (std_fit_any self X), (iqr_fit_any self X) by assumption.
  rewrite (std_fit_any self' Y), (iqr_fit_any self' Y) by assumption.
  rewrite Hcols, Hfac.
  split; [reflexivity|]. split.
  { do 2 f_equal. apply stored_bounds_ext; intros d Hd;
      unfold std_lower, std_upper;
      by destruct (Hsame d Hd) as (_ & _ & ->). }
  split; [reflexivity|].
  do 2 f_equal. apply stored_bounds_ext; intros d Hd;
    unfold iqr_lower, iqr_upper;
    by destruct (Hsame d Hd) as (_ & _ & ->).
Qed.

(** X3.  Fitting again on the same table changes nothing: [fit] overwrites
    [bounds_] with the dict it stored the first time. *)
Theorem fit_again_same_table (self self' : Estimator) (X : DataFrame) :
  (OutlierStdRemove.fit self X = Ok self' ->
   OutlierStdRemove.fit self' X = Ok self') /\
  (OutlierIQRRemove.fit self X = Ok self' ->
   OutlierIQRRemove.fit self' X = Ok self').
Proof.
  split; intros Hf.
  - pose proof (std_fit_inv _ _ _ Hf) as HC.
    rewrite std_fit_any in Hf by assumption. injection Hf as <-.
    by rewrite std_fit_any.
  - pose proof (iqr_fit_inv _ _ _ Hf) as HC.
    rewrite iqr_fit_any in Hf by assumption. injection Hf as <-.
    by rewrite iqr_fit_any.
Qed.

(** ** The errors of [transform] *)

(** What stops the loop of [transform] at a column: no bounds stored for
    it, the column absent from the table, or bounds that are no scalars. *)
Definition column_error (self : Estimator) (C : list string) (c : string)
  : option exn :=
  match bounds_ self !! c with
  | None => Some (KeyError c)
  | Some (lo, hi) =>
      if bool_decide (c ∈ C)
      then match lo, hi with
           | PFloat _, PFloat _ => None
           | _, _ => Some ValueError
           end
      else Some (KeyError c)
  end.

Fixpoint first_error (self : Estimator) (C : list string)
    (cols : list string) : option exn :=
  match cols with
  | [] => None
  | c :: cols' =>
      match column_error self C c with
      | Some e => Some e
      | None => first_error self C cols'
      end
  end.

Section TransformErrors.

Lemma loop_body_cases (self : Estimator) (C : list string) (rs : list Row)
    (c : string) :
  loop_body self (mkDF C rs) c
  = match column_error self C c with
    | Some e => Raise e
    | None =>
        Ok (mkDF C (filter (fun r => row_ok (bounds_ self) r c = true) rs))
    end.
Proof.
  unfold column_error.
  destruct (bounds_ self !! c) as [[lo hi]|] eqn:Hb.
  - destruct (bool_decide (c ∈ C)) eqn:Ec.
    + apply bool_decide_eq_true_1 in Ec.
      destruct lo as [lo|s], hi as [hi|t].
      * by apply (loop_body_scalar _ _ _ _ lo hi).
      * unfold loop_body, dict_getitem, df_getitem. rewrite Hb. cbn.
        by rewrite bool_decide_eq_true_2.
      * unfold loop_body, dict_getitem, df_getitem. rewrite Hb. cbn.
        by rewrite bool_decide_eq_true_2.
      * unfold loop_body, dict_getitem, df_getitem. rewrite Hb. cbn.
        by rewrite bool_decide_eq_true_2.
    + unfold loop_body, dict_getitem, df_getitem. rewrite Hb. cbn.
      by rewrite Ec.
  - unfold loop_body, dict_getitem. by rewrite Hb.
Qed.

Lemma for_each_cases (self : Estimator) (C : list string)
    (cols : list string) (rs : list Row) :
  for_each cols (loop_body self) (mkDF C rs)
  = match first_error self C cols with
    | Some e => Raise e
    | None =>
        Ok (mkDF C
              (filter
                 (fun r => forallb (row_ok (bounds_ self) r) cols = true) rs))
    end.
Proof.
  revert rs. induction cols as [|c cols IH]; intros rs.
  - simpl. f_equal. f_equal. induction rs as [|r rs IHr]; [reflexivity|].
    rewrite filter_cons. simpl. congruence.
  - cbn [for_each first_error]. rewrite loop_body_cases.
    destruct (column_error self C c) as [e|]; [reflexivity|].
    cbn. rewrite IH. destruct (first_error self C cols); [reflexivity|].
    by rewrite filter_filter_and.
Qed.

Lemma std_transform_cases (self : Estimator) (Y : DataFrame) :
  OutlierStdRemove.transform self Y
  = match first_error self (df_columns Y) (columns self) with
    | Some e => Raise e
    | None =>
        Ok (mkDF (df_columns Y)
              (filter (fun r => keep self r = true) (df_rows Y)))
    end.
Proof.
  rewrite std_transform_unfold. unfold df_copy. apply for_each_cases.
Qed.

End TransformErrors.

(** X4.  [transform] in closed form, for any estimator and table: it
    raises the error of the first monitored column that stops the loop
    (a [KeyError] for a column without stored bounds or absent from the
    table, a [ValueError] for bounds that are no scalars), and when no
    column does it returns the rows inside all the intervals.  Whether it
    raises, and what, does not depend on the rows of the table. *)
Theorem transform_closed_form (self : Estimator) (X : DataFrame) :
  OutlierStdRemove.transform self X
  = match first_error self (df_columns X) (columns self) with
    | Some e => Raise e
    | None =>
        Ok (mkDF (df_columns X)
              (filter (fun r => keep self r = true) (df_rows X)))
    end /\
  OutlierIQRRemove.transform self X = OutlierStdRemove.transform self X /\
  forall e rs,
    OutlierStdRemove.transform self X = Raise e <->
    OutlierStdRemove.transform self (mkDF (df_columns X) rs) = Raise e.
Proof.
  split; [apply std_transform_cases|]. split; [reflexivity|].
  intros e rs. rewrite !std_transform_cases. cbn [df_columns].
  destruct (first_error self (df_columns X) (columns self)); [done|].
  split; discriminate.
Qed.


(** ** A column named twice *)

Section RepeatedColumn.

Lemma repeated_column (cols : list string) :
  ~ NoDup cols ->
  exists c, c ∈ cols /\ 2 <= length (filter (fun d => d = c) cols).
Proof.
  induction cols as [|a cols IH]; intros Hn.
  - destruct Hn. constructor.
  - destruct (decide (a ∈ cols)) as [Hin|Hnin].
    + exists a. split; [left|].
      rewrite filter_cons, decide_True by reflexivity. simpl.
      assert (Ha : a ∈ filter (fun d => d = a) cols)
        by (by apply list_elem_of_filter).
      destruct (filter (fun d => d = a) cols); [inversion Ha | simpl; lia].
    + destruct IH as (c & Hc & Hlen).
      { intros Hnd. apply Hn. by constructor. }
      exists c. split; [by right|].
      rewrite filter_cons. destruct (decide (a = c)); simpl; lia.
Qed.

Lemma lookup_value_twice (g : string -> float) (cols : list string)
    (c : string) :
  2 <= length (filter (fun d => d = c) cols) ->
  exists s, lookup_value g cols c = PSeries s.
Proof.
  intros Hlen. unfold lookup_value.
  destruct (filter (fun d => d = c) cols) as [|d [|d' l]];
    [simpl in Hlen; lia | simpl in Hlen; lia | eauto].
Qed.

Lemma first_error_value (self : Estimator) (C cols : list string) :
  (forall c, c ∈ cols ->
     column_error self C c = None \/ column_error self C c = Some ValueError) ->
  (exists c, c ∈ cols /\ column_error self C c = Some ValueError) ->
  first_error self C cols = Some ValueError.
Proof.
  induction cols as [|a cols IH]; intros Hall (c & Hc & He).
  - inversion Hc.
  - cbn [first_error]. destruct (Hall a) as [Ha|Ha]; [left| |]; rewrite Ha;
      [|reflexivity].
    apply IH.
    + intros d ?. apply Hall. by right.
    + apply elem_of_cons in Hc as [->|Hc]; [congruence | eauto].
Qed.

Lemma fitted_column_error (lo hi : string -> float) (self : Estimator)
    (C : list string) (c : string) :
  c ∈ columns self -> c ∈ C ->
  let fitted :=
    set_bounds self (stored_bounds lo hi (columns self)) in
  (column_error fitted C c = None \/
   column_error fitted C c = Some ValueError) /\
  (2 <= length (filter (fun d => d = c) (columns self)) ->
   column_error fitted C c = Some ValueError).
Proof.
  intros Hc HC fitted. unfold column_error, fitted. cbn [bounds_ set_bounds].
  rewrite stored_bounds_lookup, decide_True by assumption.
  rewrite bool_decide_eq_true_2 by assumption.
  split.
  - destruct (lookup_value lo (columns self) c),
      (lookup_value hi (columns self) c); auto.
  - intros Hlen.
    destruct (lookup_value_twice lo _ _ Hlen) as [s ->]. reflexivity.
Qed.

End RepeatedColumn.

(** X5.  A column named more than once in [columns] breaks the estimator:
    [fit] succeeds, but what it stores for that column is a pair of
    Series, and [transform] then raises [ValueError] on every table that
    has the monitored columns. *)
Theorem repeated_column_breaks_transform (self0 self : Estimator)
    (X0 X : DataFrame) :
  ~ NoDup (columns self0) ->
  OutlierStdRemove.fit self0 X0 = Ok self \/
  OutlierIQRRemove.fit self0 X0 = Ok self ->
  (forall c, c ∈ columns self -> c ∈ df_columns X) ->
  (exists c s t,
     c ∈ columns self /\ bounds_ self !! c = Some (PSeries s, PSeries t)) /\
  OutlierStdRemove.transform self X = Raise ValueError /\
  OutlierIQRRemove.transform self X = Raise ValueError.
Proof.
  intros Hdup Hfit HC.
  assert (Hform : exists lo hi,
            self = set_bounds self0 (stored_bounds lo hi (columns self0))).
  { destruct Hfit as [Hf|Hf].
    - pose proof (std_fit_inv _ _ _ Hf) as H0.
      rewrite std_fit_any in Hf by assumption. injection Hf as <-. eauto.
    - pose proof (iqr_fit_inv _ _ _ Hf) as H0.
      rewrite iqr_fit_any in Hf by assumption. injection Hf as <-. eauto. }
  destruct Hform as (lo & hi & ->). cbn [columns set_bounds] in HC.
  destruct (repeated_column _ Hdup) as (c & Hc & Hlen).
  split.
  - destruct (lookup_value_twice lo _ _ Hlen) as [s Hs].
    destruct (lookup_value_twice hi _ _ Hlen) as [t Ht].
    exists c, s, t. split; [exact Hc|]. cbn [bounds_ set_bounds].
    rewrite stored_bounds_lookup, decide_True by assumption.
    by rewrite Hs, Ht.
  - change (OutlierIQRRemove.transform ?a ?b)
      with (OutlierStdRemove.transform a b).
    rewrite std_transform_cases. cbn [columns set_bounds].
    rewrite (first_error_value _ (df_columns X) (columns self0)); [done| |].
    + intros d Hd. apply (fitted_column_error lo hi self0); auto.
    + exists c. split; [done|].
      apply (fitted_column_error lo hi self0); auto.
Qed.


(** ** [transform] as an operation on tables *)

Section TransformAlgebra.

Lemma filter_comm {A} (P Q : A -> Prop) `{!forall x, Decision (P x)}
    `{!forall x, Decision (Q x)} (l : list A) :
  filter P (filter Q l) = filter Q (filter P l).
Proof.
  induction l as [|x l IH]; [reflexivity|].
  rewrite !filter_cons.
  destruct (decide (Q x)), (decide (P x)); rewrite ?filter_cons;
    rewrite ?decide_True, ?decide_False by assumption; by rewrite IH.
Qed.

Lemma sublist_same_length {A} (l k : list A) :
  sublist l k -> length l = length k -> l = k.
Proof.
  induction 1 as [|x l k Hs IH|x l k Hs IH]; intros Hlen.
  - reflexivity.
  - f_equal. apply IH. simpl in Hlen. lia.
  - apply sublist_length in Hs. simpl in Hlen. lia.
Qed.

End TransformAlgebra.

(** X6.  [transform] returns a sub-table: the same columns, monitored or
    not, and rows of the input in their order, each row as it was, none
    added; so the result is never longer than the input. *)
Theorem transform_returns_subtable (self : Estimator) (X X' : DataFrame) :
  OutlierStdRemove.transform self X = Ok X' \/
  OutlierIQRRemove.transform self X = Ok X' ->
  df_columns X' = df_columns X /\
  sublist (df_rows X') (df_rows X) /\
  sublist (df_index X') (df_index X) /\
  df_len X' <= df_len X /\
  (df_len X' = df_len X -> X' = df_copy X).
Proof.
  intros Ht.
  change (OutlierIQRRemove.transform self X)
    with (OutlierStdRemove.transform self X) in Ht.
  assert (H : OutlierStdRemove.transform self X = Ok X') by tauto.
  apply transform_ok_inv in H as (_ & _ & ->). cbn [df_columns df_rows].
  pose proof (sublist_filter (fun r => keep self r = true) (df_rows X)) as Hs.
  split; [reflexivity|]. split; [exact Hs|]. unfold df_index, df_len.
  cbn [df_rows]. split; [exact (fmap_sublist row_label _ _ Hs)|].
  split; [by apply sublist_length|].
  intros Hlen. unfold df_copy. f_equal.
  by apply sublist_same_length.
Qed.

(** X7.  [transform] judges each row by itself: on a table cut in two
    parts it succeeds exactly when it succeeds on both parts, and its rows
    are the rows it keeps of the first part followed by the rows it keeps
    of the second.  Filtering the training and the test partition one by
    one is filtering the whole table. *)
Theorem transform_of_two_parts (self : Estimator) (C : list string)
    (rs1 rs2 : list Row) (X' : DataFrame) :
  OutlierStdRemove.transform self (mkDF C (rs1 ++ rs2)) = Ok X' <->
  exists X1 X2,
    OutlierStdRemove.transform self (mkDF C rs1) = Ok X1 /\
    OutlierStdRemove.transform self (mkDF C rs2) = Ok X2 /\
    X' = mkDF C (df_rows X1 ++ df_rows X2).
Proof.
  rewrite !std_transform_cases. cbn [df_columns df_rows].
  destruct (first_error self C (columns self)) as [e|].
  - split; [discriminate|]. by intros (X1 & X2 & ? & _).
  - rewrite filter_app. split.
    + intros [= <-]. do 2 eexists. done.
    + intros (X1 & X2 & [= <-] & [= <-] & ->). done.
Qed.

(** X8.  Two row filters commute: when a table goes through the
    [transform] of one estimator and then through that of another, it
    also goes through them in the other order, with the same result. *)
Theorem transforms_commute (a b : Estimator) (X Xa Xab : DataFrame) :
  OutlierStdRemove.transform a X = Ok Xa ->
  OutlierIQRRemove.transform b Xa = Ok Xab ->
  exists Xb,
    OutlierIQRRemove.transform b X = Ok Xb /\
    OutlierStdRemove.transform a Xb = Ok Xab.
Proof.
  intros Ha Hb.
  change (OutlierIQRRemove.transform b ?T)
    with (OutlierStdRemove.transform b T) in *.
  apply transform_ok_inv in Ha as (Hsa & HCa & ->).
  apply transform_ok_inv in Hb as (Hsb & HCb & ->).
  cbn [df_columns df_rows] in *.
  exists (mkDF (df_columns X) (filter (fun r => keep b r = true) (df_rows X))).
  rewrite !transform_scalar by assumption. cbn [df_columns df_rows].
  split; [reflexivity|]. f_equal. f_equal. apply filter_comm.
Qed.


(** ** Columns with too few valid cells *)

Section FewValidCells.

Lemma nanstd_few_valid (xs : list float) :
  (count_valid xs < 2)%nat -> nanstd xs = nan.
Proof.
  intros Hn. unfold nanstd, nanvar.
  destruct (count_valid xs <=? 1)%nat eqn:E.
  - by rewrite div_nan_r.
  - apply Nat.leb_gt in E. lia.
Qed.

Lemma quantile_no_valid (q : float) (xs : list float) :
  count_valid xs = 0%nat -> quantile q xs = nan.
Proof.
  unfold count_valid, quantile. intros Hn.
  destruct (filter (fun x => is_nan x = false) xs); [reflexivity|].
  discriminate.
Qed.

End FewValidCells.

(** X9.  A monitored column with too few valid (non-NaN) cells gets NaN
    bounds, however many rows the table has: fewer than two valid cells
    for [OutlierStdRemove.fit], none for [OutlierIQRRemove.fit].  The
    [transform] of such an estimator returns no row. *)
Theorem few_valid_cells_give_nan_bounds (self : Estimator) (X : DataFrame)
    (c : string) :
  NoDup (columns self) ->
  (forall d, d ∈ columns self -> d ∈ df_columns X) ->
  c ∈ columns self ->
  ((count_valid (column_values X c) < 2)%nat ->
   exists self',
     OutlierStdRemove.fit self X = Ok self' /\
     bounds_ self' !! c = Some (PFloat nan, PFloat nan) /\
     forall Y Y', OutlierStdRemove.transform self' Y = Ok Y' ->
                  df_rows Y' = []) /\
  (count_valid (column_values X c) = 0%nat ->
   exists self',
     OutlierIQRRemove.fit self X = Ok self' /\
     bounds_ self' !! c = Some (PFloat nan, PFloat nan) /\
     forall Y Y', OutlierIQRRemove.transform self' Y = Ok Y' ->
                  df_rows Y' = []).
Proof.
  intros Hnd HC Hc.
  assert (Hempty : forall self' : Estimator,
            columns self' = columns self ->
            bounds_ self' !! c = Some (PFloat nan, PFloat nan) ->
            forall Y Y', OutlierStdRemove.transform self' Y = Ok Y' ->
                         df_rows Y' = []).
  { intros self' Hcols Hb Y Y' Ht.
    apply transform_ok_inv in Ht as (_ & _ & ->). cbn [df_rows].
    apply filter_none. intros r _ Hk.
    assert (Hc' : c ∈ columns self') by (by rewrite Hcols).
    pose proof (keep_column _ _ _ Hk Hc') as Hok.
    rewrite (row_ok_nan_bound _ _ _ nan nan) in Hok by auto.
    discriminate. }
  split; intros Hn.
  - eexists. split; [by apply std_fit_ok|].
    assert (Hb : bounds_
              (set_bounds self
                 (dict_of_pairs
                    (map (fun c => (c, std_bounds (factor self) X c))
                       (columns self)))) !! c
            = Some (PFloat nan, PFloat nan)).
    { cbn [bounds_ set_bounds].
      rewrite (dict_of_pairs_lookup (fun c => std_bounds (factor self) X c)).
      rewrite decide_True by assumption. unfold std_bounds.
      rewrite nanstd_few_valid by assumption.
      by rewrite mul_nan_l, sub_nan_r, add_nan_r. }
    split; [exact Hb|]. by apply Hempty.
  - eexists. split; [by apply iqr_fit_ok|].
    assert (Hb : bounds_
              (set_bounds self
                 (dict_of_pairs
                    (map (fun c => (c, iqr_bounds (factor self) X c))
                       (columns self)))) !! c
            = Some (PFloat nan, PFloat nan)).
    { cbn [bounds_ set_bounds].
      rewrite (dict_of_pairs_lookup (fun c => iqr_bounds (factor self) X c)).
      rewrite decide_True by assumption. unfold iqr_bounds.
      rewrite !quantile_no_valid by assumption.
      by rewrite sub_nan_r, mul_nan_l, sub_nan_r, add_nan_r. }
    split; [exact Hb|]. by apply Hempty.
Qed.


(** ** More on the harness *)

(** Two preprocessors of this module built with the same parameters. *)
Definition same_parameters (p p' : Preprocessor) : Prop :=
  match p, p' with
  | StdRemove e, StdRemove e' | IQRRemove e, IQRRemove e' =>
      columns e = columns e' /\ factor e = factor e'
  | _, _ => False
  end.

Section HarnessFacts.

Context {Label Model P : Type} `{Transformer P}.
Variable clone_model : Model -> Model.
Variable model_fit : Model -> DataFrame -> Series Z Label -> result Model.
Variable model_score : Model -> DataFrame -> Series Z Label -> result float.
Variable train_test_split :
  DataFrame -> Series Z Label -> float -> Z ->
  result (DataFrame * DataFrame * Series Z Label * Series Z Label).

Local Abbreviation run :=
  (compare_run clone_model model_fit model_score train_test_split).

(** X10.  The raw branch does not see the preprocessor: when [compare]
    succeeds with a preprocessor it succeeds without one, on the same
    partitions, and the "Raw" row of the two tables is the same row. *)
Theorem raw_branch_independent_of_preprocessor (m : Model) (pre : P)
    (res res' : option ResultTable) X y test_size random_state
    (r : Run (Label := Label) (P := P)) :
  run (mkComparer m (Some pre) res) X y test_size random_state = Ok r ->
  exists r0 : Run (Label := Label) (P := P),
    run (mkComparer m None res') X y test_size random_state = Ok r0 /\
    X_train r0 = X_train r /\ X_test r0 = X_test r /\
    y_train r0 = y_train r /\ y_test r0 = y_test r /\
    raw_score r0 = raw_score r /\
    branch r0 = None /\
    results r0 = take 1 (results r).
Proof.
  intros Hr. apply compare_run_inv in Hr as (Hsplit & (mf & Hfit & Hscore) & Hpre).
  cbn [preprocessor model] in *.
  destruct Hpre as (b & _ & _ & _ & _ & _ & _ & _ & Hres).
  eexists. split.
  - unfold compare_run. cbn [preprocessor model]. rewrite Hsplit. cbn.
    rewrite Hfit. cbn. rewrite Hscore. cbn. reflexivity.
  - cbn. by rewrite Hres.
Qed.

(** What [y.loc[labels]] returns is taken from [y]: every entry of the
    result is an entry of [y] whose label was asked for. *)
Lemma series_loc_from (y : Series Z Label) (labels : list Z)
    (yp : Series Z Label) :
  series_loc y labels = Ok yp ->
  forall kv, kv ∈ yp -> kv ∈ y /\ kv.1 ∈ labels.
Proof.
  revert yp. induction labels as [|j labels IH]; intros yp Hl kv Hkv.
  - injection Hl as <-. inversion Hkv.
  - cbn [series_loc] in Hl.
    destruct (filter (fun kv : Z * Label => kv.1 = j) y) as [|h hits] eqn:E;
      [discriminate|].
    apply rbind_ok in Hl as (tl & Htl & Hyp). injection Hyp as <-.
    change (h :: hits ++ tl) with ((h :: hits) ++ tl) in Hkv.
    rewrite <- E in Hkv. apply elem_of_app in Hkv as [Hkv|Hkv].
    + apply list_elem_of_filter in Hkv as [Hk Hy]. split; [done|].
      rewrite Hk. left.
    + destruct (IH tl Htl kv Hkv). split; [done | by right].
Qed.

(** X11.  The labels the processed branch trains and scores on are labels
    of the partition: every re-aligned entry is an entry of [y_train]
    (of [y_test]) whose row identifier survived the filter; no label is
    made up and none comes from the other partition. *)
Theorem realigned_labels_come_from_partition (self : ModelComparer)
    X y test_size random_state (r : Run (Label := Label) (P := P))
    (b : Branch) :
  run self X y test_size random_state = Ok r ->
  branch r = Some b ->
  (forall kv, kv ∈ y_train_processed b ->
     kv ∈ y_train r /\ kv.1 ∈ df_index (X_train_processed b)) /\
  (forall kv, kv ∈ y_test_processed b ->
     kv ∈ y_test r /\ kv.1 ∈ df_index (X_test_processed b)).
Proof.
  intros Hr Hb. apply compare_run_inv in Hr as (_ & _ & Hpre).
  destruct (preprocessor self) as [pre|].
  - destruct Hpre as (b' & Hb' & _ & _ & _ & Hytr & Hyte & _).
    rewrite Hb in Hb'. injection Hb' as <-.
    split; eauto using series_loc_from.
  - destruct Hpre as [Hn _]. congruence.
Qed.

(** An error of the [fit] of the clone is the error of [compare]. *)
Lemma compare_fit_raises (m mf : Model) (pre : P)
    (res : option ResultTable) X y test_size random_state
    Xtr Xte ytr yte (s : float) (e : exn) :
  train_test_split X y test_size random_state = Ok (Xtr, Xte, ytr, yte) ->
  model_fit (clone_model m) Xtr ytr = Ok mf ->
  model_score mf Xte yte = Ok s ->
  t_fit (t_clone pre) Xtr = Raise e ->
  compare clone_model model_fit model_score train_test_split
    (mkComparer m (Some pre) res) X y test_size random_state
  = Raise e.
Proof.
  intros Hsplit Hfit Hscore Hr.
  unfold compare, compare_run. cbn [preprocessor model].
  rewrite Hsplit. cbn. rewrite Hfit. cbn. rewrite Hscore. cbn.
  rewrite Hr. reflexivity.
Qed.

End HarnessFacts.

(** X12.  With an estimator of this module as preprocessor, the processed
    branch works on sub-tables of the partitions: the rows of the filtered
    training (test) table are rows of the training (test) partition in
    their order, so the "Processed" row never counts more rows than the
    "Raw" row. *)
Theorem processed_partitions_are_subtables {Label Model : Type}
    (clone_model : Model -> Model)
    (model_fit : Model -> DataFrame -> Series Z Label -> result Model)
    (model_score : Model -> DataFrame -> Series Z Label -> result float)
    (train_test_split :
       DataFrame -> Series Z Label -> float -> Z ->
       result (DataFrame * DataFrame * Series Z Label * Series Z Label))
    (self : ModelComparer (Model := Model) (P := Preprocessor))
    (X : DataFrame) (y : Series Z Label) (test_size : float)
    (random_state : Z) (r : Run (Label := Label) (P := Preprocessor))
    (b : Branch (Label := Label) (P := Preprocessor)) :
  compare_run clone_model model_fit model_score train_test_split
    self X y test_size random_state = Ok r ->
  branch r = Some b ->
  sublist (df_rows (X_train_processed b)) (df_rows (X_train r)) /\
  sublist (df_rows (X_test_processed b)) (df_rows (X_test r)) /\
  df_len (X_train_processed b) <= df_len (X_train r) /\
  df_len (X_test_processed b) <= df_len (X_test r) /\
  forall raw processed,
    results r = [("Raw", raw); ("Processed", processed)] ->
    Train_Samples processed <= Train_Samples raw /\
    Test_Samples processed <= Test_Samples raw.
Proof.
  intros Hr Hb. apply compare_run_inv in Hr as (_ & _ & Hpre).
  destruct (preprocessor self) as [pre|]; [|destruct Hpre; congruence].
  destruct Hpre as (b' & Hb' & _ & Htr & Hte & _ & _ & _ & Hres).
  rewrite Hb in Hb'. injection Hb' as <-.
  assert (Hsub : forall T T',
            t_transform (processor b) T = Ok T' ->
            sublist (df_rows T') (df_rows T)).
  { intros T T' Ht. cbn in Ht.
    assert (Hstd : OutlierStdRemove.transform (estimator_of (processor b)) T
                   = Ok T') by (by destruct (processor b)).
    apply transform_ok_inv in Hstd as (_ & _ & ->). cbn [df_rows].
    apply sublist_filter. }
  pose proof (Hsub _ _ Htr) as H1. pose proof (Hsub _ _ Hte) as H2.
  pose proof (sublist_length _ _ H1) as L1.
  pose proof (sublist_length _ _ H2) as L2.
  unfold df_len. repeat (split; [done|]).
  intros raw processed Heq. rewrite Hres in Heq.
  injection Heq as <- <-. done.
Qed.

(** X13.  [compare] fits a clone, so it forgets what the given
    preprocessor was fitted on before: two harnesses whose preprocessors
    were built with the same parameters, whatever their [bounds_], run to
    the same result. *)
Theorem compare_ignores_earlier_fit {Label Model : Type}
    (clone_model : Model -> Model)
    (model_fit : Model -> DataFrame -> Series Z Label -> result Model)
    (model_score : Model -> DataFrame -> Series Z Label -> result float)
    (train_test_split :
       DataFrame -> Series Z Label -> float -> Z ->
       result (DataFrame * DataFrame * Series Z Label * Series Z Label))
    (m : Model) (p p' : Preprocessor) (res res' : option ResultTable)
    (X : DataFrame) (y : Series Z Label) (test_size : float)
    (random_state : Z) :
  same_parameters p p' ->
  compare_run clone_model model_fit model_score train_test_split
    (mkComparer m (Some p) res) X y test_size random_state
  = compare_run clone_model model_fit model_score train_test_split
      (mkComparer m (Some p') res') X y test_size random_state.
Proof.
  intros Hp.
  assert (Hclone : t_clone p = t_clone p').
  { destruct p as [e|e], p' as [e'|e']; try done;
      destruct Hp as [Hc Hf]; cbn; by rewrite Hc, Hf. }
  unfold compare_run. cbn [preprocessor model]. by rewrite Hclone.
Qed.

(** X14.  After the [transform] of either class the labels can always be
    re-aligned: when the labels carry the row identifiers of the table,
    [y.loc] on the index of the filtered table raises nothing, returns
    only entries of [y] for surviving rows, and, the identifiers being
    distinct, one entry per surviving row in the order of the rows. *)
Theorem realign_after_filter {V : Type} (self : Estimator)
    (X X' : DataFrame) (y : Series Z V) :
  OutlierStdRemove.transform self X = Ok X' \/
  OutlierIQRRemove.transform self X = Ok X' ->
  map fst y = df_index X ->
  exists yp,
    series_loc y (df_index X') = Ok yp /\
    (forall kv, kv ∈ yp -> kv ∈ y /\ kv.1 ∈ df_index X') /\
    (NoDup (df_index X) ->
     map fst yp = df_index X' /\ length yp = df_len X').
Proof.
  intros Ht Hy.
  change (OutlierIQRRemove.transform self X)
    with (OutlierStdRemove.transform self X) in Ht.
  assert (Hstd : OutlierStdRemove.transform self X = Ok X') by tauto.
  destruct (series_loc_ok y (df_index X')) as [yp Hyp].
  { intros i Hi. rewrite Hy. eapply transform_index_incl; eassumption. }
  exists yp. split; [exact Hyp|]. split.
  - eauto using series_loc_from.
  - intros Hnd. rewrite <- Hy in Hnd.
    destruct (series_loc_index _ _ _ Hnd Hyp) as [Hi Hl].
    split; [done|]. unfold df_len. rewrite Hl. unfold df_index.
    apply length_map.
Qed.


(** X15.  Monitoring more columns never keeps more rows: with the same
    stored bounds, the table [transform] returns for a longer list of
    monitored columns is a sub-table of the one it returns for the
    shorter list. *)
Theorem more_columns_keep_fewer_rows (self : Estimator)
    (cols more : list string) (X X' : DataFrame) :
  OutlierStdRemove.transform (with_columns self (cols ++ more)) X = Ok X' ->
  exists X1,
    OutlierStdRemove.transform (with_columns self cols) X = Ok X1 /\
    OutlierStdRemove.transform (with_columns self more) X1 = Ok X' /\
    sublist (df_rows X') (df_rows X1).
Proof.
  intros Ht. apply transform_ok_inv in Ht as (Hs & HC & ->).
  cbn [columns with_columns] in HC.
  assert (Hs1 : scalar_bounds (with_columns self cols)).
  { intros c Hc. apply (Hs c). cbn. apply elem_of_app. by left. }
  assert (Hs2 : scalar_bounds (with_columns self more)).
  { intros c Hc. apply (Hs c). cbn. apply elem_of_app. by right. }
  eexists. split.
  { apply transform_scalar; [exact Hs1|].
    intros c Hc. apply HC, elem_of_app. by left. }
  assert (Hrows :
    filter (fun r => keep (with_columns self (cols ++ more)) r = true)
      (df_rows X)
    = filter (fun r => keep (with_columns self more) r = true)
        (filter (fun r => keep (with_columns self cols) r = true)
           (df_rows X))).
  { rewrite filter_filter_and. apply list_filter_iff. intros r.
    unfold keep. cbn [columns bounds_ with_columns].
    by rewrite forallb_app. }
  split.
  - rewrite transform_scalar; [|exact Hs2|].
    + cbn [df_columns df_rows]. by rewrite Hrows.
    + intros c Hc. cbn [df_columns]. apply HC, elem_of_app. by right.
  - cbn [df_rows]. rewrite Hrows. apply sublist_filter.
Qed.

(** ** The table objects a call builds *)

Section Allocation.

Lemma for_each_st_size (self : Estimator) (cols : list string) :
  forall (l : loc) (σ σ' : store) (v : DataFrame) (l' : loc),
    σ !! l = Some v ->
    for_each_st cols (loop_body_st self) l σ = (σ', Ok l') ->
    (size σ' = size σ + length cols)%nat.
Proof.
  induction cols as [|c cols IH]; intros l σ σ' v l' Hl Hf.
  - injection Hf as <- <-. simpl. lia.
  - rewrite for_each_st_cons, (loop_body_st_eq self l c σ v Hl) in Hf.
    destruct (loop_body self v c) as [v1|e]; [|discriminate].
    apply (IH _ _ _ v1) in Hf; [|apply lookup_insert_eq].
    rewrite Hf.
    rewrite (map_size_insert_None (fresh (dom σ)) v1 σ);
      [simpl; apply plus_n_Sm|].
    apply not_elem_of_dom, is_fresh.
Qed.

End Allocation.

(** X16.  A [transform] that returns has built one table object for the
    copy and one more for each monitored column; a [fit] that returns has
    built one, the selection of the monitored columns, and a [fit] that
    raises has built none. *)
Theorem objects_built_by_a_call (self : Estimator) (X : loc) (σ : store)
    (v : DataFrame) :
  σ !! X = Some v ->
  (forall σ' l, Stateful.transform self X σ = (σ', Ok l) ->
     (size σ' = size σ + 1 + length (columns self))%nat) /\
  (forall σ' self', Stateful.std_fit self X σ = (σ', Ok self') ->
     (size σ' = size σ + 1)%nat) /\
  (forall σ' self', Stateful.iqr_fit self X σ = (σ', Ok self') ->
     (size σ' = size σ + 1)%nat) /\
  (forall σ' e, Stateful.std_fit self X σ = (σ', Raise e) -> σ' = σ) /\
  (forall σ' e, Stateful.iqr_fit self X σ = (σ', Raise e) -> σ' = σ).
Proof.
  intros Hx.
  assert (Hfresh : forall w : DataFrame,
            (size (<[fresh (dom σ) := w]> σ) = size σ + 1)%nat).
  { intros w. rewrite (map_size_insert_None (fresh (dom σ)) w σ);
      [by rewrite Nat.add_1_r|].
    apply not_elem_of_dom, is_fresh. }
  split; [|split; [|split; [|split]]].
  - intros σ' l Ht.
    change (Stateful.transform self X σ)
      with ((Stateful.copy X ≫= for_each_st (columns self) (loop_body_st self))
              σ) in Ht.
    unfold mbind, M_bind in Ht. rewrite (copy_st_eq X σ v Hx) in Ht.
    apply (for_each_st_size _ _ _ _ _ (df_copy v)) in Ht;
      [|apply lookup_insert_eq].
    by rewrite Ht, Hfresh.
  - intros σ' self'. rewrite (std_fit_st_eq self X σ v Hx).
    destruct (df_getitem_list v (columns self)) as [F|e] eqn:E.
    + intros [= <- _]. apply Hfresh.
    + unfold OutlierStdRemove.fit. rewrite E. cbn. discriminate.
  - intros σ' self'. rewrite (iqr_fit_st_eq self X σ v Hx).
    destruct (df_getitem_list v (columns self)) as [F|e] eqn:E.
    + intros [= <- _]. apply Hfresh.
    + unfold OutlierIQRRemove.fit. rewrite E. cbn. discriminate.
  - intros σ' e. rewrite (std_fit_st_eq self X σ v Hx).
    destruct (df_getitem_list v (columns self)) as [F|e'] eqn:E.
    + pose proof (df_getitem_list_cols _ _ _ E) as HC.
      rewrite std_fit_any by assumption. discriminate.
    + by intros [= <- _].
  - intros σ' e. rewrite (iqr_fit_st_eq self X σ v Hx).
    destruct (df_getitem_list v (columns self)) as [F|e'] eqn:E.
    + pose proof (df_getitem_list_cols _ _ _ E) as HC.
      rewrite iqr_fit_any by assumption. discriminate.
    + by intros [= <- _].
Qed.

(** X17.  A monitored column that the training partition lacks stops
    [compare] after the raw branch: the call raises the [KeyError] of
    such a column, raised by the [fit] of the cloned estimator, and
    returns no table. *)
Theorem compare_raises_on_missing_column {Label Model : Type}
    (clone_model : Model -> Model)
    (model_fit : Model -> DataFrame -> Series Z Label -> result Model)
    (model_score : Model -> DataFrame -> Series Z Label -> result float)
    (train_test_split :
       DataFrame -> Series Z Label -> float -> Z ->
       result (DataFrame * DataFrame * Series Z Label * Series Z Label))
    (m mf : Model) (p : Preprocessor) (res : option ResultTable)
    (X Xtr Xte : DataFrame) (y ytr yte : Series Z Label)
    (test_size s : float) (random_state : Z) (c : string) :
  train_test_split X y test_size random_state = Ok (Xtr, Xte, ytr, yte) ->
  model_fit (clone_model m) Xtr ytr = Ok mf ->
  model_score mf Xte yte = Ok s ->
  c ∈ columns (estimator_of p) ->
  c ∉ df_columns Xtr ->
  exists d,
    d ∈ columns (estimator_of p) /\ (d ∉ df_columns Xtr) /\
    compare clone_model model_fit model_score train_test_split
      (mkComparer m (Some p) res) X y test_size random_state
    = Raise (KeyError d).
Proof.
  intros Hsplit Hfit Hscore Hc Hmiss.
  assert (Hraise : exists d,
            d ∈ columns (estimator_of p) /\ (d ∉ df_columns Xtr) /\
            t_fit (t_clone p) Xtr = Raise (KeyError d)).
  { destruct p as [e|e]; cbn in *.
    - destruct (OutlierStdRemove.fit
                  (OutlierStdRemove.init (columns e) (factor e)) Xtr)
        as [e'|err] eqn:E.
      + exfalso. apply Hmiss. eapply std_fit_inv; [exact E | exact Hc].
      + destruct (fit_raise_missing _ _ _ (or_introl E)) as (d & -> & Hd & Hn).
        exists d. done.
    - destruct (OutlierIQRRemove.fit
                  (OutlierIQRRemove.init (columns e) (factor e)) Xtr)
        as [e'|err] eqn:E.
      + exfalso. apply Hmiss. eapply iqr_fit_inv; [exact E | exact Hc].
      + destruct (fit_raise_missing _ _ _ (or_intror E)) as (d & -> & Hd & Hn).
        exists d. done. }
  destruct Hraise as (d & Hd & Hn & Hr). exists d.
  split; [done|]. split; [done|].
  eapply compare_fit_raises; eassumption.
Qed.


(** ** The further properties on worked instances *)

(** The column of [std_example] under other row labels, beside a second
    column. *)
Definition relabelled : DataFrame :=
  mkDF ["w"; "v"]
    (imap (fun i v => mkRow (Z.of_nat i + 10) (<["w" := 0]> (<["v" := v]> ∅)))
       [1; 2; 3; 4; 100]).

Definition narrow : Estimator :=
  set_bounds (OutlierStdRemove.init ["v"] OutlierStdRemove.default_factor)
    (dict_of_pairs [("v", (PFloat 2, PFloat 5))]).

Definition twice_v : Estimator :=
  OutlierStdRemove.init ["v"; "v"] OutlierStdRemove.default_factor.

Definition demo_labels : Series Z float :=
  labelled [1; 1; 1; 1; 1; 0; 0; 0; 0; 0].

Definition wrong_column : Preprocessor :=
  StdRemove (OutlierStdRemove.init ["w"] OutlierStdRemove.default_factor).

Lemma v_in_v : "v" ∈ ["v"].
Proof. apply list_elem_of_here. Defined.

Lemma fit_depends_on_monitored_columns_only_witness :
  exists b,
    OutlierStdRemove.fit
      (OutlierStdRemove.init ["v"] OutlierStdRemove.default_factor)
      std_example
    = Ok (set_bounds
            (OutlierStdRemove.init ["v"] OutlierStdRemove.default_factor) b) /\
    OutlierStdRemove.fit nan_fitted relabelled = Ok (set_bounds nan_fitted b).
Proof.
  destruct (fit_depends_on_monitored_columns_only
              (OutlierStdRemove.init ["v"] OutlierStdRemove.default_factor)
              nan_fitted std_example relabelled eq_refl eq_refl)
    as (b & _ & H1 & H2 & _).
  - intros c Hc. apply list_elem_of_singleton in Hc. subst c.
    split; [exact v_in_v|]. split; [right; left | reflexivity].
  - exists b. split; assumption.
Defined.

Lemma twice_v_not_NoDup : ~ NoDup (columns twice_v).
Proof.
  intros Hn. apply NoDup_cons in Hn as [Hn _]. apply Hn. left.
Defined.

Lemma repeated_column_breaks_transform_witness :
  exists self,
    OutlierStdRemove.fit twice_v std_example = Ok self /\
    OutlierStdRemove.transform self iqr_example = Raise ValueError.
Proof.
  destruct (OutlierStdRemove.fit twice_v std_example) as [self|e] eqn:Hfit;
    [|vm_compute in Hfit; discriminate].
  exists self. split; [reflexivity|].
  refine (proj1 (proj2 (repeated_column_breaks_transform twice_v self
                          std_example iqr_example twice_v_not_NoDup
                          (or_introl Hfit) _))).
  destruct (fit_succeeds_columns twice_v self std_example Hfit) as [-> _].
  intros c Hc. apply elem_of_cons in Hc as [->|Hc]; [exact v_in_v | exact Hc].
Defined.

Lemma std_transform_filtered :
  OutlierStdRemove.transform iqr_fitted iqr_example = Ok iqr_filtered.
Proof. vm_compute. reflexivity. Defined.

Lemma transform_returns_subtable_witness :
  OutlierStdRemove.transform iqr_fitted iqr_example = Ok iqr_filtered /\
  sublist (df_rows iqr_filtered) (df_rows iqr_example) /\
  df_len iqr_filtered <= df_len iqr_example.
Proof.
  split; [exact std_transform_filtered|].
  destruct (transform_returns_subtable iqr_fitted iqr_example iqr_filtered
              (or_introl std_transform_filtered))
    as (_ & Hs & _ & Hl & _).
  split; assumption.
Defined.

Lemma narrow_after_iqr :
  OutlierIQRRemove.transform narrow iqr_filtered
  = Ok (mkDF ["v"] (take 4 (drop 1 (df_rows iqr_example)))).
Proof. vm_compute. reflexivity. Defined.

Lemma transforms_commute_witness :
  OutlierStdRemove.transform iqr_fitted iqr_example = Ok iqr_filtered /\
  exists Xb,
    OutlierIQRRemove.transform narrow iqr_example = Ok Xb /\
    OutlierStdRemove.transform iqr_fitted Xb
    = Ok (mkDF ["v"] (take 4 (drop 1 (df_rows iqr_example)))).
Proof.
  split; [exact std_transform_filtered|].
  exact (transforms_commute iqr_fitted narrow iqr_example iqr_filtered _
           std_transform_filtered narrow_after_iqr).
Defined.

Lemma one_row_few_valid : (count_valid (column_values one_row "v") < 2)%nat.
Proof. vm_compute. constructor. Defined.

Lemma few_valid_cells_give_nan_bounds_witness :
  (count_valid (column_values one_row "v") < 2)%nat /\
  exists self',
    OutlierStdRemove.fit
      (OutlierStdRemove.init ["v"] OutlierStdRemove.default_factor) one_row
    = Ok self' /\
    bounds_ self' !! "v" = Some (PFloat nan, PFloat nan).
Proof.
  split; [exact one_row_few_valid|].
  destruct (few_valid_cells_give_nan_bounds
              (OutlierStdRemove.init ["v"] OutlierStdRemove.default_factor)
              one_row "v" NoDup_v (fun d Hd => Hd) v_in_v)
    as [Hstd _].
  destruct (Hstd one_row_few_valid) as (self' & Hfit & Hb & _).
  exists self'. split; assumption.
Defined.

Lemma raw_branch_independent_of_preprocessor_witness :
  exists r r0,
    demo_run demo_X = Ok r /\
    compare_run mean_clone mean_fit mean_score holdout_split
      (mkComparer (None : mean_model) (None : option Preprocessor) None)
      demo_X demo_y default_test_size default_random_state = Ok r0 /\
    raw_score r0 = raw_score r /\ results r0 = take 1 (results r).
Proof.
  destruct demo_runs as (r & _ & _ & _ & Hr & _).
  destruct (raw_branch_independent_of_preprocessor
              mean_clone mean_fit mean_score holdout_split
              (None : mean_model)
              (IQRRemove (OutlierIQRRemove.init ["v"]
                            OutlierIQRRemove.default_factor))
              None None demo_X demo_y default_test_size default_random_state
              r Hr)
    as (r0 & H0 & _ & _ & _ & _ & Hs & _ & Hres).
  exists r, r0. repeat (split; [assumption|]). assumption.
Defined.

Lemma realigned_labels_come_from_partition_witness :
  exists r b,
    demo_run demo_X = Ok r /\ branch r = Some b /\
    forall kv, kv ∈ y_train_processed b -> kv ∈ y_train r.
Proof.
  destruct demo_runs as (r & b & _ & _ & Hr & Hb & _).
  exists r, b. split; [exact Hr|]. split; [exact Hb|].
  intros kv Hkv.
  exact (proj1 (proj1 (realigned_labels_come_from_partition
                         mean_clone mean_fit mean_score holdout_split
                         demo_comparer demo_X demo_y default_test_size
                         default_random_state r b Hr Hb) kv Hkv)).
Defined.

Lemma processed_partitions_are_subtables_witness :
  exists r b,
    demo_run demo_X = Ok r /\ branch r = Some b /\
    df_len (X_train_processed b) <= df_len (X_train r) /\
    df_len (X_test_processed b) <= df_len (X_test r).
Proof.
  destruct demo_runs as (r & b & _ & _ & Hr & Hb & _).
  exists r, b. split; [exact Hr|]. split; [exact Hb|].
  destruct (processed_partitions_are_subtables
              mean_clone mean_fit mean_score holdout_split
              demo_comparer demo_X demo_y default_test_size
              default_random_state r b Hr Hb)
    as (_ & _ & H1 & H2 & _).
  split; assumption.
Defined.

Lemma fitted_same_parameters :
  same_parameters
    (IQRRemove (OutlierIQRRemove.init ["v"] OutlierIQRRemove.default_factor))
    (IQRRemove iqr_fitted).
Proof. split; reflexivity. Defined.

Lemma compare_ignores_earlier_fit_witness :
  demo_run demo_X
  = compare_run mean_clone mean_fit mean_score holdout_split
      (mkComparer (None : mean_model) (Some (IQRRemove iqr_fitted)) None)
      demo_X demo_y default_test_size default_random_state.
Proof.
  exact (compare_ignores_earlier_fit
           mean_clone mean_fit mean_score holdout_split (None : mean_model)
           _ _ None None demo_X demo_y default_test_size default_random_state
           fitted_same_parameters).
Defined.

Lemma demo_labels_index : map fst demo_labels = df_index iqr_example.
Proof. reflexivity. Defined.

Lemma realign_after_filter_witness :
  OutlierStdRemove.transform iqr_fitted iqr_example = Ok iqr_filtered /\
  exists yp, series_loc demo_labels (df_index iqr_filtered) = Ok yp.
Proof.
  split; [exact std_transform_filtered|].
  destruct (realign_after_filter iqr_fitted iqr_example iqr_filtered
              demo_labels (or_introl std_transform_filtered)
              demo_labels_index)
    as (yp & Hyp & _).
  exists yp. exact Hyp.
Defined.

Lemma two_columns_filtered :
  OutlierStdRemove.transform (with_columns iqr_fitted (["v"] ++ ["v"]))
    iqr_example = Ok iqr_filtered.
Proof. vm_compute. reflexivity. Defined.

Lemma more_columns_keep_fewer_rows_witness :
  OutlierStdRemove.transform (with_columns iqr_fitted (["v"] ++ ["v"]))
    iqr_example = Ok iqr_filtered /\
  exists X1,
    OutlierStdRemove.transform (with_columns iqr_fitted ["v"]) iqr_example
    = Ok X1 /\
    sublist (df_rows iqr_filtered) (df_rows X1).
Proof.
  split; [exact two_columns_filtered|].
  destruct (more_columns_keep_fewer_rows iqr_fitted ["v"] ["v"] iqr_example
              iqr_filtered two_columns_filtered)
    as (X1 & H1 & _ & Hs).
  exists X1. split; assumption.
Defined.

Lemma objects_built_by_a_call_witness :
  one_table !! 1%positive = Some iqr_example /\
  forall σ' l,
    Stateful.transform iqr_fitted 1%positive one_table = (σ', Ok l) ->
    (size σ' = size one_table + 1 + length (columns iqr_fitted))%nat.
Proof.
  split; [exact one_table_lookup|].
  exact (proj1 (objects_built_by_a_call iqr_fitted 1%positive one_table
                  iqr_example one_table_lookup)).
Defined.

Lemma compare_raises_on_missing_column_witness :
  exists d,
    compare mean_clone mean_fit mean_score holdout_split
      (mkComparer (None : mean_model) (Some wrong_column) None)
      demo_X demo_y default_test_size default_random_state
    = Raise (KeyError d).
Proof.
  destruct (holdout_split demo_X demo_y default_test_size
              default_random_state)
    as [[[[Xtr Xte] ytr] yte]|e] eqn:Hsplit;
    [|vm_compute in Hsplit; discriminate].
  destruct (mean_fit (mean_clone None) Xtr ytr) as [mf|e] eqn:Hfit;
    [|vm_compute in Hsplit; injection Hsplit as <- <- <- <-;
      vm_compute in Hfit; discriminate].
  destruct (mean_score mf Xte yte) as [s|e] eqn:Hscore;
    [|vm_compute in Hsplit; injection Hsplit as <- <- <- <-;
      vm_compute in Hfit; injection Hfit as <-;
      vm_compute in Hscore; discriminate].
  destruct (compare_raises_on_missing_column
              mean_clone mean_fit mean_score holdout_split
              (None : mean_model) mf wrong_column None
              demo_X Xtr Xte demo_y ytr yte default_test_size s
              default_random_state "w" Hsplit Hfit Hscore)
    as (d & _ & _ & Hc).
  - apply list_elem_of_here.
  - vm_compute in Hsplit. injection Hsplit as <- <- <- <-.
    cbn [df_columns]. intros Hin.
    apply list_elem_of_singleton in Hin. discriminate.
  - exists d. exact Hc.
Defined.

(** ** Row identifiers that repeat *)

(** A table and its labels under one row identifier, 0, for every row. *)
Definition repeated_X : DataFrame :=
  mkDF ["v"] (map (fun v => row1 0 "v" v) [1; 2; 3; 4; 5]).

Definition repeated_y : Series Z float :=
  map (fun v => (0%Z, v)) [10; 20; 30; 40; 50].

Section RepeatedIdentifiers.

Context {V : Type}.

Lemma hits_all_same (y : Series Z V) (i : Z) :
  (forall kv, kv ∈ y -> kv.1 = i) ->
  filter (fun kv : Z * V => kv.1 = i) y = y.
Proof.
  induction y as [|kv y IH]; intros Hall; [reflexivity|].
  rewrite filter_cons, decide_True by (apply Hall; left).
  f_equal. apply IH. intros kv' ?. apply Hall. by right.
Qed.

(** [y.loc] on [k] requests of the one label all the [n] entries of [y]
    carry returns [k * n] entries. *)
Lemma series_loc_one_label (y : Series Z V) (i : Z) (k : nat) :
  y <> [] ->
  (forall kv, kv ∈ y -> kv.1 = i) ->
  exists yp,
    series_loc y (replicate k i) = Ok yp /\
    length yp = (k * length y)%nat.
Proof.
  intros Hne Hall. induction k as [|k (tl & Htl & Hlen)].
  - by exists [].
  - cbn [replicate series_loc]. rewrite (hits_all_same y i Hall), Htl.
    destruct y as [|kv y']; [done|].
    eexists. split; [reflexivity|].
    rewrite length_app, Hlen. reflexivity.
Qed.

End RepeatedIdentifiers.

(** C6 fails on a table whose row identifiers repeat.  On five rows that
    all carry the identifier 0, four of them in the training partition,
    the filter keeps the four training rows and [y_train.loc] returns,
    for each of them, the four training labels: four rows of features
    against sixteen labels. *)
Theorem labels_misaligned_on_repeated_identifiers :
  exists (r : Run (Label := float) (P := Preprocessor)) (b : Branch),
    compare_run mean_clone mean_fit mean_score holdout_split
      demo_comparer repeated_X repeated_y
      default_test_size default_random_state = Ok r /\
    branch r = Some b /\
    df_index (X_train r) = [0; 0; 0; 0]%Z /\
    map fst (y_train r) = [0; 0; 0; 0]%Z /\
    df_len (X_train_processed b) = 4%nat /\
    length (y_train_processed b) = 16%nat.
Proof.
  do 2 eexists.
  split; [vm_compute; reflexivity|]. split; [reflexivity|].
  repeat split; vm_compute; reflexivity.
Qed.
